(** * Slate detection: parsing, scoring, selection, naming and batch renaming

    A shallow embedding of [src/resolve_mcp/slate_detection.py] and the
    properties of it that the specification states.

    Conventions of the embedding.
    - OCR text is a [string] of 8-bit characters.  The character classes of
      Python's [str] methods ([strip], [split], [upper], [isalnum],
      [isdigit]) are modelled on the code points below 128, where they are
      the ASCII ones; a code point from 128 on is treated as an ordinary
      symbol (not white space, not alphanumeric, unchanged by [upper]).
    - [confidence] is a Python [float], an IEEE 754 binary64 number: it is
      modelled by the kernel's primitive floats, so sums and comparisons
      round exactly as they do in the program.
    - The outside world (OCR engine, video decoder, file system, the editing
      application's clips) is data: a frame is the outcome of running OCR on
      it, a capture is the list of the outcomes of successive reads, a clip
      handle is the record of what each of its methods answers.
    - Code that may raise answers in [res]: [Raise e] or [Ok a]. *)

From Stdlib Require Import Ascii String List Bool Arith ZArith Lia.
From Stdlib Require Import Floats.PrimFloat.
Import ListNotations.

Set Warnings "-inexact-float".

Local Open Scope string_scope.
Local Open Scope list_scope.
Local Open Scope nat_scope.

(** ** Python's string methods on ASCII text *)

Module PyStr.

Definition code (c : ascii) : nat := nat_of_ascii c.

Definition between (lo hi : nat) (c : ascii) : bool :=
  (lo <=? code c) && (code c <=? hi).

(** [str.isspace] below 128: TAB, LF, VT, FF, CR, FS, GS, RS, US, space. *)
Definition is_space (c : ascii) : bool :=
  between 9 13 c || between 28 32 c.

Definition is_digit_char (c : ascii) : bool := between 48 57 c.
Definition is_upper_char (c : ascii) : bool := between 65 90 c.
Definition is_lower_char (c : ascii) : bool := between 97 122 c.

Definition is_alnum_char (c : ascii) : bool :=
  is_digit_char c || is_upper_char c || is_lower_char c.

Definition upper_char (c : ascii) : ascii :=
  if is_lower_char c then ascii_of_nat (code c - 32) else c.

(** [s.upper()] *)
Fixpoint upper (s : string) : string :=
  match s with
  | EmptyString => EmptyString
  | String c r => String (upper_char c) (upper r)
  end.

(** [s.lstrip(chars)], the set of characters given as a predicate. *)
Fixpoint lstrip_by (p : ascii -> bool) (s : string) : string :=
  match s with
  | EmptyString => EmptyString
  | String c r => if p c then lstrip_by p r else s
  end.

(** [s.rstrip(chars)] *)
Fixpoint rstrip_by (p : ascii -> bool) (s : string) : string :=
  match s with
  | EmptyString => EmptyString
  | String c r =>
      match rstrip_by p r with
      | EmptyString => if p c then EmptyString else String c EmptyString
      | r' => String c r'
      end
  end.

Definition strip_by (p : ascii -> bool) (s : string) : string :=
  rstrip_by p (lstrip_by p s).

(** [s.strip()] *)
Definition strip (s : string) : string := strip_by is_space s.

(** [s.strip(c)] for a one-character argument, as in [strip(':')]. *)
Definition strip_char (c : ascii) (s : string) : string :=
  strip_by (Ascii.eqb c) s.

(** [s.replace(c, '')] for a one-character [c]. *)
Fixpoint remove_char (c : ascii) (s : string) : string :=
  match s with
  | EmptyString => EmptyString
  | String d r =>
      if Ascii.eqb c d then remove_char c r else String d (remove_char c r)
  end.

Fixpoint all_chars (p : ascii -> bool) (s : string) : bool :=
  match s with
  | EmptyString => true
  | String c r => p c && all_chars p r
  end.

Definition nonempty (s : string) : bool :=
  match s with EmptyString => false | String _ _ => true end.

(** [s.isalnum()]: at least one character and all of them alphanumeric. *)
Definition isalnum (s : string) : bool := nonempty s && all_chars is_alnum_char s.

(** [s.isdigit()] *)
Definition isdigit (s : string) : bool := nonempty s && all_chars is_digit_char s.

(** [s.startswith(p)] *)
Fixpoint startswith (p s : string) : bool :=
  match p, s with
  | EmptyString, _ => true
  | String a p', String b s' => Ascii.eqb a b && startswith p' s'
  | String _ _, EmptyString => false
  end.

(** [sub in s] *)
Fixpoint contains (sub s : string) : bool :=
  startswith sub s ||
  match s with
  | EmptyString => false
  | String _ r => contains sub r
  end.

(** [s.endswith(suffix)] *)
Fixpoint endswith (suffix s : string) : bool :=
  String.eqb suffix s ||
  match s with
  | EmptyString => false
  | String _ r => endswith suffix r
  end.

(** [s.split(sep)] for a one-character separator: never an empty list. *)
Fixpoint split_on (sep : ascii) (s : string) : list string :=
  match s with
  | EmptyString => [EmptyString]
  | String c r =>
      if Ascii.eqb sep c then EmptyString :: split_on sep r
      else match split_on sep r with
           | w :: ws => String c w :: ws
           | [] => [String c EmptyString]
           end
  end.

(** [s.split()]: the maximal runs of characters that are not white space. *)
Fixpoint split_ws_aux (s : string) : string * list string :=
  match s with
  | EmptyString => (EmptyString, [])
  | String c r =>
      let '(w, ws) := split_ws_aux r in
      if is_space c
      then (EmptyString, if nonempty w then w :: ws else ws)
      else (String c w, ws)
  end.

Definition split_ws (s : string) : list string :=
  let '(w, ws) := split_ws_aux s in
  if nonempty w then w :: ws else ws.

(** [sep.join(parts)] *)
Definition join (sep : string) (parts : list string) : string :=
  String.concat sep parts.

(** [xs[-1]] of a list that is never empty here. *)
Definition last_of (xs : list string) : string := List.last xs EmptyString.

(** [len(s)] *)
Definition len (s : string) : nat := String.length s.

End PyStr.

(** ** The data model *)

(** [SlateInfo], field for field. *)
Record SlateInfo : Type := mkSlateInfo {
  production : option string;
  slate_number : option string;
  scene : option string;
  take : option string;
  roll : option string;
  camera : option string;
  director : option string;
  date : option string;
  confidence : float;
  frame_number : nat
}.

(** [SlateInfo()]: the dataclass defaults. *)
Definition SlateInfo_default : SlateInfo :=
  mkSlateInfo None None None None None None None None 0%float 0.

Definition set_production (v : string) (s : SlateInfo) : SlateInfo :=
  mkSlateInfo (Some v) (slate_number s) (scene s) (take s) (roll s) (camera s)
              (director s) (date s) (confidence s) (frame_number s).
Definition set_slate_number (v : string) (s : SlateInfo) : SlateInfo :=
  mkSlateInfo (production s) (Some v) (scene s) (take s) (roll s) (camera s)
              (director s) (date s) (confidence s) (frame_number s).
Definition set_scene (v : string) (s : SlateInfo) : SlateInfo :=
  mkSlateInfo (production s) (slate_number s) (Some v) (take s) (roll s) (camera s)
              (director s) (date s) (confidence s) (frame_number s).
Definition set_take (v : string) (s : SlateInfo) : SlateInfo :=
  mkSlateInfo (production s) (slate_number s) (scene s) (Some v) (roll s) (camera s)
              (director s) (date s) (confidence s) (frame_number s).
Definition set_roll (v : string) (s : SlateInfo) : SlateInfo :=
  mkSlateInfo (production s) (slate_number s) (scene s) (take s) (Some v) (camera s)
              (director s) (date s) (confidence s) (frame_number s).
Definition set_camera (v : string) (s : SlateInfo) : SlateInfo :=
  mkSlateInfo (production s) (slate_number s) (scene s) (take s) (roll s) (Some v)
              (director s) (date s) (confidence s) (frame_number s).
Definition set_confidence (c : float) (s : SlateInfo) : SlateInfo :=
  mkSlateInfo (production s) (slate_number s) (scene s) (take s) (roll s) (camera s)
              (director s) (date s) c (frame_number s).
Definition set_frame_number (n : nat) (s : SlateInfo) : SlateInfo :=
  mkSlateInfo (production s) (slate_number s) (scene s) (take s) (roll s) (camera s)
              (director s) (date s) (confidence s) n.

(** Truth value of an [Optional[str]]: [None] and the empty string are false. *)
Definition truthy (o : option string) : bool :=
  match o with
  | Some s => PyStr.nonempty s
  | None => false
  end.

(** ** [SlateDetector._parse_slate_text] *)

Module SlateDetector.
Import PyStr.

(** [for i, word in enumerate(words): if ... and i + 1 < len(words): ...]
    the body [rule] receives [word] and [words[i + 1]]; the last word has no
    successor and is passed over. *)
Fixpoint for_each_pair (rule : string -> string -> SlateInfo -> SlateInfo)
         (words : list string) (slate_info : SlateInfo) : SlateInfo :=
  match words with
  | [] => slate_info
  | word :: rest =>
      match rest with
      | [] => slate_info
      | next :: _ => for_each_pair rule rest (rule word next slate_info)
      end
  end.

(** [x.replace('/', '').replace('-', '').isalnum()] *)
Definition alnum_modulo_separators (x : string) : bool :=
  isalnum (remove_char "-" (remove_char "/" x)).

(** Lines 101-107. *)
Definition slate_scene_rule (word next : string) (slate_info : SlateInfo) : SlateInfo :=
  if String.eqb word "SLATE" || String.eqb word "SCENE" then
    let potential_number := strip_char ":" next in
    if alnum_modulo_separators potential_number then
      if contains "SLATE" word
      then set_slate_number potential_number slate_info
      else set_scene potential_number slate_info
    else slate_info
  else slate_info.

(** Lines 112-115. *)
Definition take_rule (word next : string) (slate_info : SlateInfo) : SlateInfo :=
  if contains "TAKE" word then
    let potential_take := strip_char ":" next in
    if isdigit potential_take then set_take potential_take slate_info
    else slate_info
  else slate_info.

(** Lines 120-123. *)
Definition roll_rule (word next : string) (slate_info : SlateInfo) : SlateInfo :=
  if contains "ROLL" word then
    let potential_roll := strip_char ":" next in
    if alnum_modulo_separators potential_roll then set_roll potential_roll slate_info
    else slate_info
  else slate_info.

(** Lines 128-132. *)
Definition camera_rule (word next : string) (slate_info : SlateInfo) : SlateInfo :=
  if contains "CAMERA" word || contains "CAM" word then
    let potential_camera := strip_char ":" next in
    if alnum_modulo_separators potential_camera
    then set_camera potential_camera slate_info
    else slate_info
  else slate_info.

Definition production_keywords : list string :=
  ["SLATE"; "SCENE"; "TAKE"; "ROLL"; "CAMERA"].

(** Lines 135-137; [line] is the normalised line. *)
Definition production_rule (line : string) (slate_info : SlateInfo) : SlateInfo :=
  if (5 <? len line) && negb (existsb (fun keyword => contains keyword line) production_keywords)
  then
    if negb (truthy (production slate_info)) && isalnum (remove_char " " line)
    then set_production line slate_info
    else slate_info
  else slate_info.

(** The body of the loop over the lines (lines 94-137).  The loop variable
    is rebound to its stripped, upper-cased form before any rule reads it. *)
Definition process_line (raw_line : string) (slate_info : SlateInfo) : SlateInfo :=
  let line := upper (strip raw_line) in
  let slate_info :=
    if contains "SLATE" line || contains "SCENE" line
    then for_each_pair slate_scene_rule (split_ws line) slate_info
    else slate_info in
  let slate_info :=
    if contains "TAKE" line
    then for_each_pair take_rule (split_ws line) slate_info
    else slate_info in
  let slate_info :=
    if contains "ROLL" line
    then for_each_pair roll_rule (split_ws line) slate_info
    else slate_info in
  let slate_info :=
    if contains "CAMERA" line || contains "CAM" line
    then for_each_pair camera_rule (split_ws line) slate_info
    else slate_info in
  production_rule line slate_info.

Definition process_lines (lines : list string) (slate_info : SlateInfo) : SlateInfo :=
  fold_left (fun acc raw_line => process_line raw_line acc) lines slate_info.

(** [text.strip().split('\n')] *)
Definition text_lines (text : string) : list string :=
  split_on "010" (strip text).

Definition _parse_slate_text (text : string) : SlateInfo :=
  process_lines (text_lines text) SlateInfo_default.

(** ** [SlateDetector._calculate_confidence] *)

(** [min(a, b)] of Python on two arguments: [b] when [b < a], else [a]. *)
Definition py_min (a b : float) : float :=
  if PrimFloat.ltb b a then b else a.

Definition add_if (cond : bool) (w : float) (confidence : float) : float :=
  if cond then PrimFloat.add confidence w else confidence.

Definition _calculate_confidence (slate_info : SlateInfo) (raw_text : string) : float :=
  let confidence := 0%float in
  let confidence := add_if (10 <? len (strip raw_text)) 0.1%float confidence in
  let confidence := add_if (truthy (slate_number slate_info)) 0.3%float confidence in
  let confidence := add_if (truthy (scene slate_info)) 0.2%float confidence in
  let confidence := add_if (truthy (take slate_info)) 0.2%float confidence in
  let confidence := add_if (truthy (roll slate_info)) 0.1%float confidence in
  let confidence := add_if (truthy (camera slate_info)) 0.1%float confidence in
  let confidence := add_if (truthy (production slate_info)) 0.1%float confidence in
  py_min confidence 1.0%float.

End SlateDetector.

(** ** Exceptions *)

Inductive exn : Type :=
| ImportError (msg : string)
| FileNotFoundError (msg : string)
| Exception (msg : string).

(** [str(e)] *)
Definition str_of_exn (e : exn) : string :=
  match e with
  | ImportError msg | FileNotFoundError msg | Exception msg => msg
  end.

(** The outcome of code that may raise. *)
Inductive res (A : Type) : Type :=
| Raise (e : exn)
| Ok (a : A).
Arguments Raise {A} e.
Arguments Ok {A} a.

Definition bind {A B : Type} (m : res A) (k : A -> res B) : res B :=
  match m with
  | Raise e => Raise e
  | Ok a => k a
  end.

Notation "x <- m ;; k" := (bind m (fun x => k))
  (at level 61, m at next level, right associativity).

(** ** The outside world *)

(** A frame, seen through the one thing the program does with it: colour
    conversion and [pytesseract.image_to_string], which answer a text or raise. *)
Record Frame : Type := mkFrame { image_to_string : res string }.

(** What one call of [cap.read()] does when a frame is left to read. *)
Inductive read_event : Type :=
| Got (frame : Frame)
| ReadFails (e : exn).

(** An opened [cv2.VideoCapture]: the reads still to come; once the list is
    used up [cap.read()] answers [ret = False]. *)
Definition Capture : Type := list read_event.

Record Env : Type := mkEnv {
  HAS_OPENCV : bool;
  HAS_TESSERACT : bool;
  (** the file system: the video stored at a path, if the path exists *)
  video_at : string -> option Capture
}.

(** [os.path.exists(path)] *)
Definition path_exists (env : Env) (path : string) : bool :=
  match video_at env path with Some _ => true | None => false end.

(** [cv2.VideoCapture(video_path)] on an existing path. *)
Definition VideoCapture (env : Env) (path : string) : Capture :=
  match video_at env path with Some cap => cap | None => [] end.

(** ** [SlateDetector.analyze_frame] *)

Definition analyze_frame (env : Env) (frame : Frame) : SlateInfo :=
  if negb (HAS_TESSERACT env) || negb (HAS_OPENCV env) then SlateInfo_default
  else
    match image_to_string frame with
    | Ok text =>
        let slate_info := SlateDetector._parse_slate_text text in
        set_confidence (SlateDetector._calculate_confidence slate_info text) slate_info
    | Raise _ => SlateInfo_default
    end.

(** ** [analyze_video_for_slate] *)

(** What a run of the sampling loop leaves behind: the value returned or the
    exception raised, the reads the capture has not served, and (a ghost
    field, absent from the program) the candidates [analyze_frame] produced,
    in the order of the calls. *)
Record Sampling : Type := mkSampling {
  outcome : res SlateInfo;
  unread : Capture;
  analysed : list SlateInfo
}.

Definition logged (slate_info : SlateInfo) (s : Sampling) : Sampling :=
  mkSampling (outcome s) (unread s) (slate_info :: analysed s).

(** The [while frame_count < max_frames] loop (lines 260-278); every turn
    consumes one read, so the recursion is on the capture. *)
Fixpoint sampling_loop (env : Env) (max_frames : Z) (cap : Capture)
         (frame_count : nat) (best_slate_info : SlateInfo) : Sampling :=
  if (Z.of_nat frame_count <? max_frames)%Z then
    match cap with
    | [] => mkSampling (Ok best_slate_info) [] []
    | ReadFails e :: cap' => mkSampling (Raise e) cap' []
    | Got frame :: cap' =>
        if frame_count mod 5 =? 0 then
          let slate_info := set_frame_number frame_count (analyze_frame env frame) in
          let best_slate_info :=
            if PrimFloat.ltb (confidence best_slate_info) (confidence slate_info)
            then slate_info else best_slate_info in
          if PrimFloat.ltb 0.8%float (confidence slate_info)
          then logged slate_info (mkSampling (Ok best_slate_info) cap' [])
          else logged slate_info
                 (sampling_loop env max_frames cap' (S frame_count) best_slate_info)
        else sampling_loop env max_frames cap' (S frame_count) best_slate_info
    end
  else mkSampling (Ok best_slate_info) cap [].

Definition analyze_video_sampling (env : Env) (video_path : string) (max_frames : Z) : Sampling :=
  sampling_loop env max_frames (VideoCapture env video_path) 0 SlateInfo_default.

Definition default_max_frames : Z := 30%Z.

Definition analyze_video_for_slate (env : Env) (video_path : string) (max_frames : Z)
  : res SlateInfo :=
  if negb (HAS_OPENCV env) then
    Raise (ImportError "OpenCV is required for video analysis")
  else if negb (path_exists env video_path) then
    Raise (FileNotFoundError ("Video file not found: " ++ video_path)%string)
  else outcome (analyze_video_sampling env video_path max_frames).

(** ** [ClipRenamer] *)

Module ClipRenamer.
Import PyStr.

Definition value (o : option string) : string :=
  match o with Some s => s | None => EmptyString end.

Definition generate_clip_name (slate_info : SlateInfo) (original_name : string) : string :=
  let name_parts : list string := [] in
  let name_parts :=
    if truthy (production slate_info)
    then name_parts ++ [value (production slate_info)] else name_parts in
  let name_parts :=
    if truthy (scene slate_info)
    then name_parts ++ [("Scene_" ++ value (scene slate_info))%string]
    else if truthy (slate_number slate_info)
    then name_parts ++ [("Slate_" ++ value (slate_number slate_info))%string]
    else name_parts in
  let name_parts :=
    if truthy (take slate_info)
    then name_parts ++ [("Take_" ++ value (take slate_info))%string] else name_parts in
  let name_parts :=
    if truthy (camera slate_info)
    then name_parts ++ [("Cam_" ++ value (camera slate_info))%string] else name_parts in
  match name_parts with
  | [] => original_name
  | _ :: _ =>
      let new_name := join "_" name_parts in
      if contains "." original_name then
        let extension := last_of (split_on "." original_name) in
        if negb (endswith ("." ++ extension)%string new_name)
        then (new_name ++ "." ++ extension)%string
        else new_name
      else new_name
  end.

End ClipRenamer.

(** A clip handle of the editing application, as the answers of the three
    calls the program makes on it. *)
Record Clip : Type := mkClip {
  GetName : res string;
  (** [clip.GetClipProperty("File Path")]: a path, or nothing *)
  GetFilePath : res (option string);
  (** [clip.SetClipProperty("Clip Name", new_name)], its answer as a truth value *)
  SetClipName : string -> res bool
}.

(** [ClipRenamer.rename_clip]: an exception of the call is logged and turned
    into [False]. *)
Definition rename_clip (clip : Clip) (new_name : string) : bool :=
  match SetClipName clip new_name with
  | Ok b => b
  | Raise _ => false
  end.

(** ** [analyze_clips_and_rename] *)

Inductive Status : Type := renamed | skipped | error.

(** The text under ["reason"], by the statement that writes it:
    - [FileMissing]: "File path not found or file does not exist"
    - [LowConfidence c]: "Low confidence slate detection (c)", [c] printed
      with two decimals
    - [SameName]: "Generated name same as original"
    - [RenameFailed]: "Failed to rename clip"
    - [AnalysisError e]: "Analysis error: " followed by [str(e)] *)
Inductive Reason : Type :=
| FileMissing
| LowConfidence (c : float)
| SameName
| RenameFailed
| AnalysisError (e : exn).

(** The dictionary stored under ["slate_info"]. *)
Record SlateFields : Type := mkSlateFields {
  sf_production : option string;
  sf_slate_number : option string;
  sf_scene : option string;
  sf_take : option string;
  sf_roll : option string;
  sf_camera : option string
}.

(** One entry of ["clip_results"]; a key that was never written is [None]. *)
Record ClipResult : Type := mkClipResult {
  original_name : string;
  status : Status;
  reason : option Reason;
  new_name : option string;
  slate_fields : option SlateFields;
  result_confidence : option float
}.

(** The [results] dictionary. *)
Record Results : Type := mkResults {
  analyzed_clips : nat;
  successful_renames : nat;
  failed_renames : nat;
  clip_results : list ClipResult
}.

(** What [analyze_clips_and_rename] returns: the dictionary with the single
    key ["error"], or [results]. *)
Inductive BatchOutcome : Type :=
| BatchError (msg : string)
| BatchResult (results : Results).

Definition results_init : Results := mkResults 0 0 0 [].

Definition count_analyzed (r : Results) : Results :=
  mkResults (S (analyzed_clips r)) (successful_renames r) (failed_renames r) (clip_results r).
Definition count_success (r : Results) : Results :=
  mkResults (analyzed_clips r) (S (successful_renames r)) (failed_renames r) (clip_results r).
Definition count_failure (r : Results) : Results :=
  mkResults (analyzed_clips r) (successful_renames r) (S (failed_renames r)) (clip_results r).
Definition append_result (c : ClipResult) (r : Results) : Results :=
  mkResults (analyzed_clips r) (successful_renames r) (failed_renames r) (clip_results r ++ [c]).

Definition with_outcome (st : Status) (why : option Reason) (c : ClipResult) : ClipResult :=
  mkClipResult (original_name c) st why (new_name c) (slate_fields c) (result_confidence c).

Definition snapshot (s : SlateInfo) : SlateFields :=
  mkSlateFields (production s) (slate_number s) (scene s) (take s) (roll s) (camera s).

(** The body of [for clip in clips] (lines 319-384).  A [Raise] is an
    exception that leaves the loop: only the two lookups before the inner
    [try] can raise one. *)
Definition process_clip (env : Env) (dry_run : bool) (clip : Clip) (results : Results)
  : res Results :=
  clip_name <- GetName clip ;;
  clip_path <- GetFilePath clip ;;
  let clip_result := mkClipResult clip_name error None None None None in
  let results := count_analyzed results in
  if negb (truthy clip_path) || negb (path_exists env (ClipRenamer.value clip_path)) then
    Ok (append_result (with_outcome skipped (Some FileMissing) clip_result) results)
  else
    match analyze_video_for_slate env (ClipRenamer.value clip_path) default_max_frames with
    | Ok slate_info =>
        if PrimFloat.ltb (confidence slate_info) 0.3%float then
          Ok (append_result
                (with_outcome skipped (Some (LowConfidence (confidence slate_info))) clip_result)
                results)
        else
          let name := ClipRenamer.generate_clip_name slate_info clip_name in
          if String.eqb name clip_name then
            Ok (append_result (with_outcome skipped (Some SameName) clip_result) results)
          else
            let clip_result :=
              mkClipResult clip_name error None (Some name)
                           (Some (snapshot slate_info)) (Some (confidence slate_info)) in
            if negb dry_run then
              if rename_clip clip name
              then Ok (append_result (with_outcome renamed None clip_result)
                                     (count_success results))
              else Ok (append_result (with_outcome error (Some RenameFailed) clip_result)
                                     (count_failure results))
            else Ok (append_result (with_outcome renamed None clip_result)
                                   (count_success results))
    | Raise e =>
        Ok (append_result (with_outcome error (Some (AnalysisError e)) clip_result)
                          (count_failure results))
    end.

(** [for clip in clips: ...] *)
Fixpoint process_clips (env : Env) (dry_run : bool) (clips : list Clip) (results : Results)
  : res Results :=
  match clips with
  | [] => Ok results
  | clip :: rest =>
      results <- process_clip env dry_run clip results ;;
      process_clips env dry_run rest results
  end.

(** [folder]: the answer of [folder.GetClips()]. *)
Definition Folder : Type := res (list Clip).

Definition analyze_clips_and_rename (env : Env) (folder : Folder) (dry_run : bool)
  : BatchOutcome :=
  if negb (HAS_OPENCV env) || negb (HAS_TESSERACT env) then
    BatchError "Required dependencies not available. Install opencv-python and pytesseract."
  else
    match (clips <- folder ;;
           match clips with
           | [] => Ok (BatchError "No clips found in the specified folder.")
           | _ :: _ =>
               results <- process_clips env dry_run clips results_init ;;
               Ok (BatchResult results)
           end) with
    | Ok out => out
    | Raise e => BatchError ("Failed to analyze clips: " ++ str_of_exn e)%string
    end.

(** * Vocabulary of the statements *)

Import PyStr SlateDetector.

(** The character LF, and a text given by its lines. *)
Definition LF : string := String "010" EmptyString.
Definition text_of_lines (lines : list string) : string := join LF lines.

(** [override m cur]: the field after a pass that matched [m] (or nothing). *)
Definition override (m cur : option string) : option string :=
  match m with
  | Some v => Some v
  | None => cur
  end.

(** A state transformer [f] treats the field [F] as write-only. *)
Definition writes (F : SlateInfo -> option string) (f : SlateInfo -> SlateInfo) : Prop :=
  forall st, F (f st) = override (F (f SlateInfo_default)) (F st).

(** The five keyword fields. *)
Inductive keyword_field : Type := f_slate_number | f_scene | f_take | f_roll | f_camera.

Definition get (k : keyword_field) : SlateInfo -> option string :=
  match k with
  | f_slate_number => slate_number
  | f_scene => scene
  | f_take => take
  | f_roll => roll
  | f_camera => camera
  end.

(** One keyword pass of [process_line]: the guard on the line, then the
    scan of its words. *)
Definition keyword_pass (guard : bool) (rule : string -> string -> SlateInfo -> SlateInfo)
           (line : string) (st : SlateInfo) : SlateInfo :=
  if guard then for_each_pair rule (split_ws line) st else st.

(** The value a line gives to a keyword field when it is parsed on its own. *)
Definition line_match (k : keyword_field) (raw_line : string) : option string :=
  get k (process_line raw_line SlateInfo_default).

(** The rule that writes a keyword field, and the value it gives the field
    on one pair of adjacent words. *)
Definition rule_of (k : keyword_field) : string -> string -> SlateInfo -> SlateInfo :=
  match k with
  | f_slate_number | f_scene => slate_scene_rule
  | f_take => take_rule
  | f_roll => roll_rule
  | f_camera => camera_rule
  end.

Definition pair_match (k : keyword_field) (word next : string) : option string :=
  get k (rule_of k word next SlateInfo_default).

(** The fields of a parse, confidence and frame number at their defaults. *)
Definition parsed (production slate_number scene take roll camera : option string) : SlateInfo :=
  mkSlateInfo production slate_number scene take roll camera None None 0%float 0.

(** *** Pairs of words *)

(** The pairs [(words[i], words[i + 1])], in the order of the scan. *)
Fixpoint adjacent_pairs (words : list string) : list (string * string) :=
  match words with
  | [] => []
  | word :: rest =>
      match rest with
      | [] => []
      | next :: _ => (word, next) :: adjacent_pairs rest
      end
  end.

(** The last of a list of matches. *)
Fixpoint last_some (matches : list (option string)) : option string :=
  match matches with
  | [] => None
  | m :: rest => override (last_some rest) m
  end.

(** The value of the last matching pair of a list of words, if any. *)
Definition last_pair_match (k : keyword_field) (words : list string) : option string :=
  last_some (map (fun p => pair_match k (fst p) (snd p)) (adjacent_pairs words)).

(** *** What the parser stores *)

(** A field is unset, or its value passes the check. *)
Definition value_ok (check : string -> bool) (o : option string) : Prop :=
  forall v, o = Some v -> check v = true.

Definition production_check (v : string) : bool :=
  (5 <? len v) && isalnum (remove_char " " v) && String.eqb (upper v) v.

(** The checks the values of a parse have passed. *)
Definition parse_checked (s : SlateInfo) : Prop :=
  value_ok alnum_modulo_separators (slate_number s)
  /\ value_ok alnum_modulo_separators (scene s)
  /\ value_ok isdigit (take s)
  /\ value_ok alnum_modulo_separators (roll s)
  /\ value_ok alnum_modulo_separators (camera s)
  /\ value_ok production_check (production s).

(** The fields no rule of the parser writes. *)
Definition parse_untouched (s : SlateInfo) : Prop :=
  director s = None /\ date s = None
  /\ confidence s = 0%float /\ frame_number s = 0.

(** The test on the line that opens the scan for a keyword field. *)
Definition guard_of (k : keyword_field) (line : string) : bool :=
  match k with
  | f_slate_number | f_scene => contains "SLATE" line || contains "SCENE" line
  | f_take => contains "TAKE" line
  | f_roll => contains "ROLL" line
  | f_camera => contains "CAMERA" line || contains "CAM" line
  end.

(** *** Scores *)

(** A field is set: it holds a value. *)
Definition is_set (o : option string) : bool :=
  match o with
  | Some _ => true
  | None => false
  end.

(** The invariant of the data model on the text fields: a field is unset or
    holds a text that is not empty. *)
Definition field_ok (o : option string) : Prop := o <> Some EmptyString.

Definition SlateInfo_ok (s : SlateInfo) : Prop :=
  field_ok (production s) /\ field_ok (slate_number s) /\ field_ok (scene s)
  /\ field_ok (take s) /\ field_ok (roll s) /\ field_ok (camera s).

(** The score in the words of the specification: the sum of the weights of
    what is present, then the smaller of 1.0 and that sum. *)
Definition weight (present : bool) (w : float) : float :=
  if present then w else 0%float.

Definition spec_sum (s : SlateInfo) (raw_text : string) : float :=
  (weight (10 <? len (strip raw_text))%nat 0.1
   + weight (is_set (slate_number s)) 0.3
   + weight (is_set (scene s)) 0.2
   + weight (is_set (take s)) 0.2
   + weight (is_set (roll s)) 0.1
   + weight (is_set (camera s)) 0.1
   + weight (is_set (production s)) 0.1)%float.

Definition spec_min (a b : float) : float :=
  if PrimFloat.leb a b then a else b.

Definition spec_score (s : SlateInfo) (raw_text : string) : float :=
  spec_min 1.0%float (spec_sum s raw_text).

(** The seventeen numbers a score can be, in increasing order: the sums the
    program forms are rounded, so 0.1 + 0.2 and 0.3 are two of them. *)
Definition score_values : list float :=
  [ 0%float; 0.1%float; 0.2%float; 0.3%float; (0.1 + 0.2)%float; 0.4%float;
    0.5%float; 0.6%float; (0.1 + 0.3 + 0.2)%float; 0.7%float;
    (0.1 + 0.3 + 0.2 + 0.1)%float; (0.3 + 0.2 + 0.2 + 0.1)%float; 0.8%float;
    (0.3 + 0.2 + 0.2 + 0.1 + 0.1)%float; 0.9%float;
    (0.3 + 0.2 + 0.2 + 0.1 + 0.1 + 0.1)%float; 1%float ].

(** The place of a number in [score_values]. *)
Fixpoint rank_in (values : list float) (x : float) : nat :=
  match values with
  | [] => 0
  | y :: rest => if PrimFloat.eqb x y then 0 else S (rank_in rest x)
  end.

Definition rank (x : float) : nat := rank_in score_values x.

(** [score_values] lists its numbers in strictly increasing order, and the
    comparisons of the program on them are the comparisons of their ranks. *)
Definition ranks_agree (values : list float) : bool :=
  forallb (fun a =>
    forallb (fun b =>
      Bool.eqb (PrimFloat.ltb a b) (rank a <? rank b)
      && Bool.eqb (PrimFloat.leb a b) (rank a <=? rank b)
      && Bool.eqb (PrimFloat.eqb a b) (rank a =? rank b)) values) values.

(** [detects_no_more s s']: every scoring field set in [s] is set in [s']. *)
Definition detects_no_more (s s' : SlateInfo) : Prop :=
  (truthy (slate_number s) = true -> truthy (slate_number s') = true)
  /\ (truthy (scene s) = true -> truthy (scene s') = true)
  /\ (truthy (take s) = true -> truthy (take s') = true)
  /\ (truthy (roll s) = true -> truthy (roll s') = true)
  /\ (truthy (camera s) = true -> truthy (camera s') = true)
  /\ (truthy (production s) = true -> truthy (production s') = true).

(** *** Names *)

(** [original_name.split('.')[-1]] *)
Definition extension_of (name : string) : string := last_of (split_on "." name).

Definition has_dot (name : string) : bool := contains "." name.

(** Some part of a name comes from the SlateInfo. *)
Definition names_something (s : SlateInfo) : bool :=
  truthy (production s) || truthy (scene s) || truthy (slate_number s)
  || truthy (take s) || truthy (camera s).

(** The parts of a generated name, and the step that appends the
    extension, as [generate_clip_name] computes them. *)
Definition name_parts_of (slate_info : SlateInfo) : list string :=
  (if truthy (production slate_info) then [ClipRenamer.value (production slate_info)] else [])
  ++ (if truthy (scene slate_info)
      then [("Scene_" ++ ClipRenamer.value (scene slate_info))%string]
      else if truthy (slate_number slate_info)
      then [("Slate_" ++ ClipRenamer.value (slate_number slate_info))%string]
      else [])
  ++ (if truthy (take slate_info)
      then [("Take_" ++ ClipRenamer.value (take slate_info))%string] else [])
  ++ (if truthy (camera slate_info)
      then [("Cam_" ++ ClipRenamer.value (camera slate_info))%string] else []).

Definition with_extension (new_name original_name : string) : string :=
  if has_dot original_name then
    if negb (endswith ("." ++ extension_of original_name)%string new_name)
    then (new_name ++ "." ++ extension_of original_name)%string
    else new_name
  else new_name.

(** *** ASCII text *)

(** A text of code points below 128, where the string methods of the
    embedding are those of Python. *)
Definition is_ascii_char (c : ascii) : bool := code c <? 128.

Definition ascii_text (s : string) : bool := all_chars is_ascii_char s.

(** *** Frames the selector considers *)

(** [considered_frame env cap max_frames i frame]: the read at the count [i]
    of the capture answers [frame], the count is sampled (a multiple of 5
    below the cap), and no sampled frame before it has a confidence above
    0.8. *)
Definition considered_frame (env : Env) (cap : Capture) (max_frames : Z)
           (i : nat) (frame : Frame) : Prop :=
  nth_error cap i = Some (Got frame)
  /\ i mod 5 = 0
  /\ (Z.of_nat i < max_frames)%Z
  /\ forall j frame_j,
       j < i -> j mod 5 = 0 -> nth_error cap j = Some (Got frame_j) ->
       PrimFloat.ltb 0.8%float (confidence (analyze_frame env frame_j)) = false.

(** *** Batches *)

Definition is_renamed (c : ClipResult) : bool :=
  match status c with renamed => true | _ => false end.
Definition is_error (c : ClipResult) : bool :=
  match status c with error => true | _ => false end.

Definition count (p : ClipResult -> bool) (l : list ClipResult) : nat :=
  List.length (filter p l).

(** The invariant of the report. *)
Definition batch_invariant (r : Results) : Prop :=
  analyzed_clips r = List.length (clip_results r)
  /\ successful_renames r = count is_renamed (clip_results r)
  /\ failed_renames r = count is_error (clip_results r)
  /\ successful_renames r + failed_renames r <= analyzed_clips r.

(** The clip has no file to analyse. *)
Definition file_missing (env : Env) (clip : Clip) : Prop :=
  exists clip_path,
    GetFilePath clip = Ok clip_path
    /\ (truthy clip_path = false \/ path_exists env (ClipRenamer.value clip_path) = false).

(** The analysis of the clip's file, when the clip has one. *)
Definition analysis_of (env : Env) (clip : Clip) (a : res SlateInfo) : Prop :=
  exists path,
    GetFilePath clip = Ok (Some path)
    /\ nonempty path = true
    /\ path_exists env path = true
    /\ analyze_video_for_slate env path default_max_frames = a.

(** [recorded env dry_run clip c]: the entry [c] of the report accounts for
    what happened to [clip]: it carries the clip's name, a reason unless the
    clip was renamed, and for each kind of failure the status and the reason
    the program writes for it. *)
Definition recorded (env : Env) (dry_run : bool) (clip : Clip) (c : ClipResult) : Prop :=
  GetName clip = Ok (original_name c)
  /\ (status c = renamed \/ reason c <> None)
  /\ (file_missing env clip -> status c = skipped /\ reason c = Some FileMissing)
  /\ (forall e, analysis_of env clip (Raise e) ->
        status c = error /\ reason c = Some (AnalysisError e))
  /\ (forall s, analysis_of env clip (Ok s) ->
        PrimFloat.ltb (confidence s) 0.3%float = true ->
        status c = skipped /\ reason c = Some (LowConfidence (confidence s)))
  /\ (forall s, analysis_of env clip (Ok s) ->
        PrimFloat.ltb (confidence s) 0.3%float = false ->
        let name := ClipRenamer.generate_clip_name s (original_name c) in
        String.eqb name (original_name c) = false ->
        dry_run = false ->
        rename_clip clip name = false ->
        status c = error /\ reason c = Some RenameFailed).

(** Every lookup of a name and of a file path answers. *)
Definition lookups_answer (clip : Clip) : Prop :=
  (exists name, GetName clip = Ok name) /\ (exists path, GetFilePath clip = Ok path).

(** The report after one more clip, whose entry is [c]. *)
Definition bump (b : bool) (n : nat) : nat := if b then S n else n.

Definition step_results (r : Results) (c : ClipResult) : Results :=
  mkResults (S (analyzed_clips r))
            (bump (is_renamed c) (successful_renames r))
            (bump (is_error c) (failed_renames r))
            (clip_results r ++ [c]).

(** Two clip handles that answer the same name and the same file path. *)
Definition same_lookups (c c' : Clip) : Prop :=
  GetName c = GetName c' /\ GetFilePath c = GetFilePath c'.

(** The application accepts every rename of the clip. *)
Definition accepts_renames (c : Clip) : Prop :=
  forall name, SetClipName c name = Ok true.

(** What an entry of a report holds, by its status. *)
Definition entry_ok (dry_run : bool) (c : ClipResult) : Prop :=
  match status c with
  | renamed =>
      reason c = None
      /\ slate_fields c <> None
      /\ exists name conf,
           new_name c = Some name
           /\ String.eqb name (original_name c) = false
           /\ result_confidence c = Some conf
           /\ PrimFloat.ltb conf 0.3%float = false
  | skipped =>
      new_name c = None /\ slate_fields c = None /\ result_confidence c = None
      /\ (reason c = Some FileMissing
          \/ reason c = Some SameName
          \/ exists conf,
               reason c = Some (LowConfidence conf)
               /\ PrimFloat.ltb conf 0.3%float = true)
  | error =>
      (exists e,
          reason c = Some (AnalysisError e)
          /\ new_name c = None /\ slate_fields c = None /\ result_confidence c = None)
      \/ (reason c = Some RenameFailed
          /\ dry_run = false
          /\ exists name,
               new_name c = Some name /\ String.eqb name (original_name c) = false)
  end.

(** The lookup that ends a batch: the name of the clip, or its file path
    after the name has been answered. *)
Definition lookup_raises (clip : Clip) (e : exn) : Prop :=
  GetName clip = Raise e
  \/ ((exists name, GetName clip = Ok name) /\ GetFilePath clip = Raise e).

(** The skipped entries, and the accounting of the counters. *)
Definition is_skipped (c : ClipResult) : bool :=
  match status c with skipped => true | _ => false end.

Definition accounted (r : Results) : Prop :=
  analyzed_clips r
  = successful_renames r + failed_renames r + count is_skipped (clip_results r).

(** *** Sample data *)

Definition frame_of_text (text : string) : Frame := mkFrame (Ok text).

Definition blank_frames (n : nat) : Capture := repeat (Got (frame_of_text "")) n.

Definition full_slate : string :=
  text_of_lines ["MY AWESOME FILM"; "SCENE 5A SLATE 23"; "TAKE 3"; "ROLL 001"; "CAMERA A"].

(** Two frames of equal score at the counts 0 and 5, a weaker one at 10. *)
Definition tied_capture : Capture :=
  Got (frame_of_text "TAKE 3 of many more") :: blank_frames 4
  ++ Got (frame_of_text "TAKE 4 of many more") :: blank_frames 4
  ++ [Got (frame_of_text "ROLL 7")].

(** A full slate at the count 5; the read at the count 6 would raise. *)
Definition slate_capture : Capture :=
  Got (frame_of_text "TAKE 3 of many more") :: blank_frames 4
  ++ Got (frame_of_text full_slate) :: ReadFails (Exception "decode error")
  :: blank_frames 3 ++ [Got (frame_of_text full_slate)].

Definition sample_env : Env :=
  mkEnv true true
        (fun path =>
           if String.eqb path "/media/tied.mov" then Some tied_capture
           else if String.eqb path "/media/slate.mov" then Some slate_capture
           else if String.eqb path "/media/blank.mov" then Some (blank_frames 12)
           else if String.eqb path "/media/broken.mov"
                then Some [ReadFails (Exception "decode error")]
           else None).

(** A clip whose sampled frames score 0.3, 0.5 and 0.5 at the counts 0, 5
    and 10, and the environment that holds it. *)
Definition rising_capture : Capture :=
  Got (frame_of_text "TAKE 3 of many more") :: blank_frames 4
  ++ Got (frame_of_text "SCENE 5A TAKE 3") :: blank_frames 4
  ++ [Got (frame_of_text "SCENE 5B TAKE 4")].

Definition rising_env : Env :=
  mkEnv true true
        (fun path =>
           if String.eqb path "/media/rising.mov" then Some rising_capture else None).

(** The sample environment without the OCR engine. *)
Definition no_ocr_env : Env := mkEnv true false (video_at sample_env).

(** Sample clips: one whose file holds a full slate, one whose file is gone,
    one whose frames are blank, one whose file cannot be decoded, one the
    application refuses to rename, one whose handle has gone stale. *)
Definition clip_at (name path : string) (rename_answer : res bool) : Clip :=
  mkClip (Ok name) (Ok (Some path)) (fun _ => rename_answer).

Definition clip_slate : Clip := clip_at "A001.mov" "/media/slate.mov" (Ok true).
Definition clip_gone : Clip := clip_at "A002.mov" "/media/gone.mov" (Ok true).
Definition clip_blank : Clip := clip_at "A003.mov" "/media/blank.mov" (Ok true).
Definition clip_broken : Clip := clip_at "A004.mov" "/media/broken.mov" (Ok true).
Definition clip_locked : Clip := clip_at "A005.mov" "/media/slate.mov" (Ok false).
Definition clip_stale : Clip :=
  mkClip (Raise (Exception "stale handle")) (Ok (Some "/media/slate.mov")) (fun _ => Ok true).

Definition clip_slate_refused : Clip :=
  clip_at "A001.mov" "/media/slate.mov" (Raise (Exception "clip is locked")).

Definition sample_clips : list Clip :=
  [clip_slate; clip_gone; clip_blank; clip_broken; clip_locked].

(** * Properties *)

(** ** The parser *)

Lemma override_assoc (a b c : option string) :
  override a (override b c) = override (override a b) c.
Proof. destruct a; reflexivity. Qed.

Lemma writes_id F : F SlateInfo_default = None -> writes F (fun st => st).
Proof. intros H st. rewrite H. reflexivity. Qed.

Lemma writes_comp F f g : writes F f -> writes F g -> writes F (fun st => g (f st)).
Proof.
  intros Hf Hg st.
  rewrite (Hg (f st)), (Hg (f SlateInfo_default)), (Hf st).
  apply override_assoc.
Qed.

Lemma writes_for_each_pair F rule :
  F SlateInfo_default = None ->
  (forall word next, writes F (rule word next)) ->
  forall words, writes F (for_each_pair rule words).
Proof.
  intros H0 Hrule words.
  induction words as [|word rest IH].
  - apply writes_id, H0.
  - destruct rest as [|next rest'].
    + apply writes_id, H0.
    + change (writes F (fun st => for_each_pair rule (next :: rest') (rule word next st))).
      apply writes_comp; [apply Hrule | exact IH].
Qed.

Lemma slate_scene_rule_writes k word next : writes (get k) (slate_scene_rule word next).
Proof.
  unfold slate_scene_rule.
  destruct (String.eqb word "SLATE" || String.eqb word "SCENE");
    [ destruct (alnum_modulo_separators (strip_char ":" next));
      [ destruct (contains "SLATE" word) | ] | ];
    destruct k; intros []; reflexivity.
Qed.

Lemma take_rule_writes k word next : writes (get k) (take_rule word next).
Proof.
  unfold take_rule.
  destruct (contains "TAKE" word); [ destruct (isdigit (strip_char ":" next)) | ];
    destruct k; intros []; reflexivity.
Qed.

Lemma roll_rule_writes k word next : writes (get k) (roll_rule word next).
Proof.
  unfold roll_rule.
  destruct (contains "ROLL" word);
    [ destruct (alnum_modulo_separators (strip_char ":" next)) | ];
    destruct k; intros []; reflexivity.
Qed.

Lemma camera_rule_writes k word next : writes (get k) (camera_rule word next).
Proof.
  unfold camera_rule.
  destruct (contains "CAMERA" word || contains "CAM" word);
    [ destruct (alnum_modulo_separators (strip_char ":" next)) | ];
    destruct k; intros []; reflexivity.
Qed.

Lemma production_rule_writes k line : writes (get k) (production_rule line).
Proof.
  intros st. unfold production_rule.
  destruct ((5 <? len line) &&
            negb (existsb (fun keyword => contains keyword line) production_keywords)).
  - cbn [production SlateInfo_default truthy negb andb].
    destruct (negb (truthy (production st)) && isalnum (remove_char " " line));
      destruct (isalnum (remove_char " " line)); destruct k; destruct st; reflexivity.
  - destruct k; destruct st; reflexivity.
Qed.

Lemma get_default k : get k SlateInfo_default = None.
Proof. destruct k; reflexivity. Qed.

Lemma process_line_passes raw_line st :
  process_line raw_line st =
  let line := upper (strip raw_line) in
  production_rule line
    (keyword_pass (contains "CAMERA" line || contains "CAM" line) camera_rule line
       (keyword_pass (contains "ROLL" line) roll_rule line
          (keyword_pass (contains "TAKE" line) take_rule line
             (keyword_pass (contains "SLATE" line || contains "SCENE" line)
                           slate_scene_rule line st)))).
Proof. reflexivity. Qed.

Lemma keyword_pass_writes k guard rule line :
  (forall word next, writes (get k) (rule word next)) ->
  writes (get k) (keyword_pass guard rule line).
Proof.
  intros Hrule. unfold keyword_pass. destruct guard.
  - apply writes_for_each_pair; [apply get_default | exact Hrule].
  - apply writes_id, get_default.
Qed.

(** Processing a line overwrites a keyword field with the line's own match,
    if it has one, and leaves it alone otherwise. *)
(** Processing a line overwrites a keyword field with the line's own match,
    if it has one, and leaves it alone otherwise. *)
Lemma process_line_writes k raw_line : writes (get k) (process_line raw_line).
Proof.
  set (line := upper (strip raw_line)).
  pose proof (keyword_pass_writes k (contains "SLATE" line || contains "SCENE" line)
                slate_scene_rule line (slate_scene_rule_writes k)) as H1.
  pose proof (keyword_pass_writes k (contains "TAKE" line)
                take_rule line (take_rule_writes k)) as H2.
  pose proof (keyword_pass_writes k (contains "ROLL" line)
                roll_rule line (roll_rule_writes k)) as H3.
  pose proof (keyword_pass_writes k (contains "CAMERA" line || contains "CAM" line)
                camera_rule line (camera_rule_writes k)) as H4.
  pose proof (production_rule_writes k line) as H5.
  pose proof (writes_comp _ _ _ (writes_comp _ _ _ (writes_comp _ _ _
                (writes_comp _ _ _ H1 H2) H3) H4) H5) as H.
  intros st. rewrite !process_line_passes. exact (H st).
Qed.

Lemma process_line_override k raw_line st :
  get k (process_line raw_line st) = override (line_match k raw_line) (get k st).
Proof. apply process_line_writes. Qed.

Lemma process_lines_no_match k lines st :
  (forall l, In l lines -> line_match k l = None) ->
  get k (process_lines lines st) = get k st.
Proof.
  revert st. induction lines as [|l lines IH]; intros st Hnone; [reflexivity|].
  cbn [process_lines fold_left].
  change (get k (process_lines lines (process_line l st)) = get k st).
  rewrite IH by (intros l' Hl'; apply Hnone; now right).
  rewrite process_line_override, (Hnone l) by now left.
  reflexivity.
Qed.

Lemma process_lines_app l1 l2 st :
  process_lines (l1 ++ l2) st = process_lines l2 (process_lines l1 st).
Proof. apply fold_left_app. Qed.

(** Last match wins, line by line. *)
Lemma process_lines_last_match k before l after st v :
  line_match k l = Some v ->
  (forall l', In l' after -> line_match k l' = None) ->
  get k (process_lines (before ++ l :: after) st) = Some v.
Proof.
  intros Hl Hafter.
  rewrite process_lines_app.
  change (process_lines (l :: after) ?s) with (process_lines after (process_line l s)).
  rewrite process_lines_no_match by exact Hafter.
  rewrite process_line_override, Hl. reflexivity.
Qed.

(** The scan of the words applies the rule to the last pair last. *)
Lemma for_each_pair_last rule words word next st :
  for_each_pair rule (words ++ [word; next]) st =
  rule word next (for_each_pair rule (words ++ [word]) st).
Proof.
  revert st. induction words as [|w ws IH]; intros st; [reflexivity|].
  destruct ws as [|w' ws'].
  - reflexivity.
  - change (for_each_pair rule ((w' :: ws') ++ [word; next]) (rule w w' st) =
            rule word next (for_each_pair rule ((w' :: ws') ++ [word]) (rule w w' st))).
    apply IH.
Qed.


(** *** Which rule touches which field *)

Lemma for_each_pair_invariant (P : SlateInfo -> Prop) rule :
  (forall word next st, P st -> P (rule word next st)) ->
  forall words st, P st -> P (for_each_pair rule words st).
Proof.
  intros Hrule words.
  induction words as [|word rest IH]; intros st Hst; [exact Hst|].
  destruct rest as [|next rest']; [exact Hst|].
  change (P (for_each_pair rule (next :: rest') (rule word next st))).
  apply IH, Hrule, Hst.
Qed.

Lemma keyword_pass_invariant (P : SlateInfo -> Prop) guard rule line st :
  (forall word next st, P st -> P (rule word next st)) ->
  P st -> P (keyword_pass guard rule line st).
Proof.
  intros Hrule Hst. unfold keyword_pass.
  destruct guard; [now apply for_each_pair_invariant | exact Hst].
Qed.

Lemma keyword_pass_skip k guard rule line st :
  guard = false \/ (forall word next s, get k (rule word next s) = get k s) ->
  get k (keyword_pass guard rule line st) = get k st.
Proof.
  intros [-> | Hrule]; [reflexivity|].
  apply (keyword_pass_invariant (fun s => get k s = get k st)); [|reflexivity].
  intros word next s Hs. now rewrite Hrule.
Qed.

Lemma slate_scene_rule_keeps k word next s :
  k <> f_slate_number -> k <> f_scene ->
  get k (slate_scene_rule word next s) = get k s.
Proof.
  intros H1 H2. unfold slate_scene_rule.
  destruct (String.eqb word "SLATE" || String.eqb word "SCENE"); [|reflexivity].
  destruct (alnum_modulo_separators (strip_char ":" next)); [|reflexivity].
  destruct (contains "SLATE" word); destruct k; try reflexivity; contradiction.
Qed.

Lemma take_rule_keeps k word next s :
  k <> f_take -> get k (take_rule word next s) = get k s.
Proof.
  intros H. unfold take_rule.
  destruct (contains "TAKE" word); [|reflexivity].
  destruct (isdigit (strip_char ":" next)); destruct k; try reflexivity; contradiction.
Qed.

Lemma roll_rule_keeps k word next s :
  k <> f_roll -> get k (roll_rule word next s) = get k s.
Proof.
  intros H. unfold roll_rule.
  destruct (contains "ROLL" word); [|reflexivity].
  destruct (alnum_modulo_separators (strip_char ":" next));
    destruct k; try reflexivity; contradiction.
Qed.

Lemma camera_rule_keeps k word next s :
  k <> f_camera -> get k (camera_rule word next s) = get k s.
Proof.
  intros H. unfold camera_rule.
  destruct (contains "CAMERA" word || contains "CAM" word); [|reflexivity].
  destruct (alnum_modulo_separators (strip_char ":" next));
    destruct k; try reflexivity; contradiction.
Qed.

Lemma production_rule_keeps k line s : get k (production_rule line s) = get k s.
Proof.
  unfold production_rule.
  destruct ((5 <? len line) &&
            negb (existsb (fun keyword => contains keyword line) production_keywords));
    [|reflexivity].
  destruct (negb (truthy (production s)) && isalnum (remove_char " " line));
    destruct k; reflexivity.
Qed.

(** *** First match or last match *)

Lemma last_some_app l1 l2 : last_some (l1 ++ l2) = override (last_some l2) (last_some l1).
Proof.
  induction l1 as [|m l1 IH]; cbn [app last_some].
  - now destruct (last_some l2).
  - rewrite IH. symmetry. apply override_assoc.
Qed.

Lemma last_some_none l : (forall m, In m l -> m = None) -> last_some l = None.
Proof.
  induction l as [|m l IH]; intros H; [reflexivity|].
  cbn [last_some]. rewrite IH by (intros m' Hm'; apply H; now right).
  apply H. now left.
Qed.

Lemma adjacent_pairs_cons word next rest :
  adjacent_pairs (word :: next :: rest) = (word, next) :: adjacent_pairs (next :: rest).
Proof. reflexivity. Qed.

Lemma adjacent_pairs_app words word next rest :
  adjacent_pairs (words ++ word :: next :: rest)
  = adjacent_pairs (words ++ [word]) ++ (word, next) :: adjacent_pairs (next :: rest).
Proof.
  induction words as [|w ws IH]; [reflexivity|].
  destruct ws as [|w' ws']; [reflexivity|].
  cbn [app] in IH |- *. rewrite !adjacent_pairs_cons, IH. reflexivity.
Qed.

Lemma rule_of_writes k word next : writes (get k) (rule_of k word next).
Proof.
  destruct k; cbn [rule_of];
    auto using slate_scene_rule_writes, take_rule_writes, roll_rule_writes,
               camera_rule_writes.
Qed.

(** The scan of a list of words leaves in a keyword field the value of the
    last matching pair of the list, and leaves the field alone when no pair
    matches. *)
Lemma for_each_pair_last_pair k words :
  forall st,
    get k (for_each_pair (rule_of k) words st)
    = override (last_pair_match k words) (get k st).
Proof.
  induction words as [|word rest IH]; intros st; [reflexivity|].
  destruct rest as [|next rest']; [reflexivity|].
  change (for_each_pair (rule_of k) (word :: next :: rest') st)
    with (for_each_pair (rule_of k) (next :: rest') (rule_of k word next st)).
  rewrite IH, (rule_of_writes k word next st).
  unfold last_pair_match. rewrite adjacent_pairs_cons.
  cbn [map last_some fst snd]. unfold pair_match.
  apply override_assoc.
Qed.

Lemma override_None_r m : override m None = m.
Proof. now destruct m. Qed.

Lemma own_pass k guard line st :
  get k st = None ->
  get k (keyword_pass guard (rule_of k) line st)
  = if guard
    then get k (for_each_pair (rule_of k) (split_ws line) SlateInfo_default)
    else None.
Proof.
  intros Hst. unfold keyword_pass. destruct guard; [|exact Hst].
  rewrite (writes_for_each_pair (get k) (rule_of k) (get_default k) (rule_of_writes k)).
  rewrite Hst. apply override_None_r.
Qed.

(** The match of a line is the result of the scan of its words by the rule
    of the field, made when the line passes the guard of the field. *)
Lemma line_match_scan k raw_line :
  line_match k raw_line
  = if guard_of k (upper (strip raw_line))
    then get k (for_each_pair (rule_of k) (split_ws (upper (strip raw_line)))
                              SlateInfo_default)
    else None.
Proof.
  unfold line_match. rewrite process_line_passes. cbv zeta.
  set (line := upper (strip raw_line)).
  rewrite production_rule_keeps.
  assert (Hss : forall j, j <> f_slate_number -> j <> f_scene ->
                  forall word next s, get j (slate_scene_rule word next s) = get j s)
    by (intros; now apply slate_scene_rule_keeps).
  assert (Htk : forall j, j <> f_take ->
                  forall word next s, get j (take_rule word next s) = get j s)
    by (intros; now apply take_rule_keeps).
  assert (Hrl : forall j, j <> f_roll ->
                  forall word next s, get j (roll_rule word next s) = get j s)
    by (intros; now apply roll_rule_keeps).
  assert (Hcm : forall j, j <> f_camera ->
                  forall word next s, get j (camera_rule word next s) = get j s)
    by (intros; now apply camera_rule_keeps).
  destruct k; cbn [guard_of];
    repeat (rewrite keyword_pass_skip
              by (right; first [ apply Hss | apply Htk | apply Hrl | apply Hcm ];
                  discriminate)).
  - apply (own_pass f_slate_number). reflexivity.
  - apply (own_pass f_scene). reflexivity.
  - apply (own_pass f_take).
    rewrite keyword_pass_skip by (right; apply Hss; discriminate). reflexivity.
  - apply (own_pass f_roll).
    rewrite !keyword_pass_skip
      by (right; first [ apply Hss | apply Htk ]; discriminate). reflexivity.
  - apply (own_pass f_camera).
    rewrite !keyword_pass_skip
      by (right; first [ apply Hss | apply Htk | apply Hrl ]; discriminate). reflexivity.
Qed.

(** C1, as the code has it: for every input text and each of the fields
    slate_number, scene, take, roll and camera, every successful match
    overwrites the field.  The parse holds the value of the last line that
    matches the field, whatever the lines before it had set; the match of a
    line is the result of the scan of its words; and the scan of a list of
    words leaves the value of the last matching pair of words, wherever the
    pair stands in the list. *)
Theorem C1_last_match_wins :
  forall k : keyword_field,
    (forall (text : string) (before after : list string) (l v : string),
        text_lines text = before ++ l :: after ->
        line_match k l = Some v ->
        (forall l', In l' after -> line_match k l' = None) ->
        get k (_parse_slate_text text) = Some v)
    /\
    (forall raw_line : string,
        line_match k raw_line
        = if guard_of k (upper (strip raw_line))
          then get k (for_each_pair (rule_of k) (split_ws (upper (strip raw_line)))
                                    SlateInfo_default)
          else None)
    /\
    (forall (words rest : list string) (word next v : string) (st : SlateInfo),
        pair_match k word next = Some v ->
        (forall a b, In (a, b) (adjacent_pairs (next :: rest)) -> pair_match k a b = None) ->
        get k (for_each_pair (rule_of k) (words ++ word :: next :: rest) st) = Some v)
    /\
    (forall (words : list string) (st : SlateInfo),
        (forall a b, In (a, b) (adjacent_pairs words) -> pair_match k a b = None) ->
        get k (for_each_pair (rule_of k) words st) = get k st).
Proof.
  intros k. split; [|split; [|split]].
  - intros text before after l v Hsplit Hl Hafter.
    unfold _parse_slate_text. rewrite Hsplit.
    now apply process_lines_last_match.
  - apply line_match_scan.
  - intros words rest word next v st Hpair Hlater.
    rewrite for_each_pair_last_pair. unfold last_pair_match.
    rewrite adjacent_pairs_app, map_app, last_some_app.
    cbn [map last_some fst snd]. rewrite Hpair.
    rewrite last_some_none; [reflexivity|].
    intros m Hm. apply in_map_iff in Hm. destruct Hm as ([a b] & <- & Hab).
    now apply Hlater.
  - intros words st Hnone.
    rewrite for_each_pair_last_pair. unfold last_pair_match.
    rewrite last_some_none; [reflexivity|].
    intros m Hm. apply in_map_iff in Hm. destruct Hm as ([a b] & <- & Hab).
    now apply Hnone.
Qed.

(** C1 at a text with two TAKE lines, and at the words TAKE 3 CAMERA A with
    a take already read: the pair TAKE 3 is the last that matches take, and
    the two pairs after it do not. *)
Lemma C1_last_match_wins_witness :
  take (_parse_slate_text (text_of_lines ["TAKE 1"; "TAKE 2"; "ROLL 7"])) = Some "2"
  /\ take (for_each_pair take_rule (["TAKE"; "1"] ++ "TAKE" :: "3" :: ["CAMERA"; "A"])
                         (set_take "9" SlateInfo_default))
     = Some "3".
Proof.
  split.
  - apply (proj1 (C1_last_match_wins f_take)
             (text_of_lines ["TAKE 1"; "TAKE 2"; "ROLL 7"]) ["TAKE 1"] ["ROLL 7"] "TAKE 2" "2").
    + reflexivity.
    + reflexivity.
    + intros l' [<- | []]. reflexivity.
  - apply (proj1 (proj2 (proj2 (C1_last_match_wins f_take)))
             ["TAKE"; "1"] ["CAMERA"; "A"] "TAKE" "3" "3" (set_take "9" SlateInfo_default)).
    + reflexivity.
    + intros a b [[= <- <-] | [[= <- <-] | []]]; reflexivity.
Defined.

(** C1 as the specification words it fails: each of the five fields is set
    by one of the first five lines, and each is changed by a later line. *)
Lemma C1_first_match_is_overwritten :
  _parse_slate_text
    (text_of_lines ["SLATE 1"; "SCENE 2"; "TAKE 3"; "ROLL 4"; "CAM 5"])
  = parsed None (Some "1") (Some "2") (Some "3") (Some "4") (Some "5")
  /\
  _parse_slate_text
    (text_of_lines ["SLATE 1"; "SCENE 2"; "TAKE 3"; "ROLL 4"; "CAM 5";
                    "SLATE 6"; "SCENE 7"; "TAKE 8"; "ROLL 9"; "CAM 0"])
  = parsed None (Some "6") (Some "7") (Some "8") (Some "9") (Some "0").
Proof. split; reflexivity. Qed.

(** *** The example of the specification *)

(** C2 at its input: the word "SCENE:" keeps its colon and is not equal to
    "SCENE", so the scene is not read; take and camera are, and the score is
    0.1 + 0.2 + 0.1. *)
Theorem C2_scene_colon_example :
  let text := text_of_lines ["SCENE: 5A"; "TAKE: 3"; "CAMERA: A"] in
  (10 <? len (strip text)) = true
  /\ _parse_slate_text text = parsed None None None (Some "3") None (Some "A")
  /\ _calculate_confidence (_parse_slate_text text) text = 0.4%float
  /\ PrimFloat.eqb (_calculate_confidence (_parse_slate_text text) text) 0.6%float = false.
Proof. cbv zeta. repeat split; vm_compute; reflexivity. Qed.

(** The same slate without the colon after SCENE parses and scores as the
    specification's example says. *)
Lemma scene_without_colon_example :
  let text := text_of_lines ["SCENE 5A"; "TAKE: 3"; "CAMERA: A"] in
  _parse_slate_text text = parsed None None (Some "5A") (Some "3") None (Some "A")
  /\ _calculate_confidence (_parse_slate_text text) text = 0.6%float.
Proof. cbv zeta. split; vm_compute; reflexivity. Qed.

(** *** The production line *)

Lemma for_each_pair_production rule :
  (forall word next st, production (rule word next st) = production st) ->
  forall words st, production (for_each_pair rule words st) = production st.
Proof.
  intros Hrule words.
  induction words as [|word rest IH]; intros st; [reflexivity|].
  destruct rest as [|next rest']; [reflexivity|].
  change (production (for_each_pair rule (next :: rest') (rule word next st)) = production st).
  now rewrite IH, Hrule.
Qed.

Lemma keyword_pass_production guard rule line st :
  (forall word next st, production (rule word next st) = production st) ->
  production (keyword_pass guard rule line st) = production st.
Proof.
  intros Hrule. unfold keyword_pass.
  destruct guard; [now apply for_each_pair_production | reflexivity].
Qed.

Lemma slate_scene_rule_production word next st :
  production (slate_scene_rule word next st) = production st.
Proof.
  unfold slate_scene_rule.
  destruct (String.eqb word "SLATE" || String.eqb word "SCENE"); [|reflexivity].
  destruct (alnum_modulo_separators (strip_char ":" next)); [|reflexivity].
  destruct (contains "SLATE" word); reflexivity.
Qed.

Lemma take_rule_production word next st :
  production (take_rule word next st) = production st.
Proof.
  unfold take_rule.
  destruct (contains "TAKE" word); [|reflexivity].
  destruct (isdigit (strip_char ":" next)); reflexivity.
Qed.

Lemma roll_rule_production word next st :
  production (roll_rule word next st) = production st.
Proof.
  unfold roll_rule.
  destruct (contains "ROLL" word); [|reflexivity].
  destruct (alnum_modulo_separators (strip_char ":" next)); reflexivity.
Qed.

Lemma camera_rule_production word next st :
  production (camera_rule word next st) = production st.
Proof.
  unfold camera_rule.
  destruct (contains "CAMERA" word || contains "CAM" word); [|reflexivity].
  destruct (alnum_modulo_separators (strip_char ":" next)); reflexivity.
Qed.

(** The production field is the one field with a guard: once it holds a
    name, no line changes it. *)
Lemma process_line_keeps_production raw_line st :
  truthy (production st) = true ->
  production (process_line raw_line st) = production st.
Proof.
  intros Hset. rewrite process_line_passes. cbv zeta.
  set (line := upper (strip raw_line)).
  unfold production_rule.
  rewrite !keyword_pass_production
    by auto using slate_scene_rule_production, take_rule_production,
                  roll_rule_production, camera_rule_production.
  rewrite Hset. cbn [negb andb].
  destruct ((5 <? len line) &&
            negb (existsb (fun keyword => contains keyword line) production_keywords));
    rewrite !keyword_pass_production
      by auto using slate_scene_rule_production, take_rule_production,
                    roll_rule_production, camera_rule_production;
    reflexivity.
Qed.

Lemma process_lines_keep_production lines st :
  truthy (production st) = true ->
  production (process_lines lines st) = production st.
Proof.
  revert st. induction lines as [|l lines IH]; intros st Hset; [reflexivity|].
  change (production (process_lines lines (process_line l st)) = production st).
  rewrite IH; rewrite process_line_keeps_production; auto.
Qed.

Lemma len_nonempty s : 5 < len s -> nonempty s = true.
Proof. destruct s; cbn; [lia | reflexivity]. Qed.

(** C3, as the code has it: a line whose trimmed, upper-cased form contains
    none of the keywords SLATE, SCENE, TAKE, ROLL, CAMERA, CAM, is longer
    than 5 characters and is alphanumeric once its spaces are removed, met
    while production is unset, is assigned to production in that trimmed,
    upper-cased form, no other field changes, and no later line changes
    production. *)
Theorem C3_production_is_upper_cased :
  forall (raw_line : string) (st : SlateInfo),
    let line := upper (strip raw_line) in
    (forall keyword,
        In keyword ["SLATE"; "SCENE"; "TAKE"; "ROLL"; "CAMERA"; "CAM"] ->
        contains keyword line = false) ->
    5 < len line ->
    isalnum (remove_char " " line) = true ->
    production st = None ->
    process_line raw_line st = set_production line st
    /\ forall later, production (process_lines later (process_line raw_line st)) = Some line.
Proof.
  intros raw_line st line Hkw Hlen Halnum Hunset.
  assert (Hstep : process_line raw_line st = set_production line st).
  { rewrite process_line_passes. cbv zeta. fold line.
    rewrite !Hkw by (cbn; tauto).
    cbn [orb keyword_pass]. unfold production_rule.
    apply Nat.ltb_lt in Hlen. rewrite Hlen.
    cbn [existsb production_keywords]. rewrite !Hkw by (cbn; tauto).
    cbn [orb negb andb]. rewrite Hunset, Halnum. reflexivity. }
  split; [exact Hstep|].
  intros later. rewrite Hstep.
  rewrite process_lines_keep_production; [reflexivity|].
  cbn. apply len_nonempty, Hlen.
Qed.

(** C3 at the line "  My Film ". *)
Lemma C3_production_is_upper_cased_witness :
  process_line "  My Film " SlateInfo_default = set_production "MY FILM" SlateInfo_default
  /\ forall later,
      production (process_lines later (process_line "  My Film " SlateInfo_default))
      = Some "MY FILM".
Proof.
  apply (C3_production_is_upper_cased "  My Film " SlateInfo_default).
  - intros keyword Hin. cbn in Hin.
    repeat (destruct Hin as [<- | Hin]; [reflexivity|]). destruct Hin.
  - apply Nat.ltb_lt. reflexivity.
  - reflexivity.
  - reflexivity.
Defined.

(** C3 as the specification words it fails: the line "My Film" is assigned
    upper-cased, and not in the case of the input. *)
Lemma C3_original_case_is_lost :
  let line := "My Film" in
  existsb (fun keyword => contains keyword (upper line))
          ["SLATE"; "SCENE"; "TAKE"; "ROLL"; "CAMERA"; "CAM"] = false
  /\ (5 <? len line) = true
  /\ isalnum (remove_char " " line) = true
  /\ strip line = line
  /\ production (_parse_slate_text line) = Some "MY FILM"
  /\ production (_parse_slate_text line) <> Some line.
Proof. cbv zeta. repeat split; try reflexivity. discriminate. Qed.

(** C10: the line "CAMCORDER A" contains CAM and not CAMERA (nor SLATE,
    SCENE, TAKE, ROLL), is longer than 5 characters and alphanumeric once its
    spaces are removed; parsed as the first line of a text it sets both
    camera, by the CAM rule, and production. *)
Theorem C10_cam_line_sets_camera_and_production :
  let line := "CAMCORDER A" in
  contains "CAM" line = true
  /\ existsb (fun keyword => contains keyword line) production_keywords = false
  /\ (5 <? len line) = true
  /\ isalnum (remove_char " " line) = true
  /\ _parse_slate_text line = parsed (Some "CAMCORDER A") None None None None (Some "A")
  /\ _parse_slate_text (text_of_lines [line; "TAKE 2"])
     = parsed (Some "CAMCORDER A") None None (Some "2") None (Some "A").
Proof. cbv zeta. repeat split; reflexivity. Qed.

(** ** The score *)

Lemma truthy_is_set o : field_ok o -> truthy o = is_set o.
Proof. destruct o as [[|c r]|]; cbn; intros H; [now destruct H | reflexivity | reflexivity]. Qed.

(** C4: for every SlateInfo of the data model and every raw text the score
    is the smaller of 1.0 and the sum of 0.1 for a trimmed text longer than
    10 characters, 0.3 for slate_number, 0.2 for scene, 0.2 for take, 0.1 for
    roll, 0.1 for camera and 0.1 for production, each counted when the field
    is set; and it lies between 0.0 and 1.0. *)
Theorem C4_score_is_clamped_sum :
  forall (slate_info : SlateInfo) (raw_text : string),
    SlateInfo_ok slate_info ->
    _calculate_confidence slate_info raw_text = spec_score slate_info raw_text
    /\ PrimFloat.leb 0%float (_calculate_confidence slate_info raw_text) = true
    /\ PrimFloat.leb (_calculate_confidence slate_info raw_text) 1%float = true.
Proof.
  intros slate_info raw_text (Hp & Hn & Hs & Ht & Hr & Hc).
  unfold _calculate_confidence, spec_score, spec_sum.
  rewrite !truthy_is_set by assumption.
  destruct (10 <? len (strip raw_text)), (is_set (slate_number slate_info)),
    (is_set (scene slate_info)), (is_set (take slate_info)),
    (is_set (roll slate_info)), (is_set (camera slate_info)),
    (is_set (production slate_info)); vm_compute; auto.
Qed.

(** C4 at a slate with every field set and a long text: the sum 1.1 is cut
    to 1.0. *)
Lemma C4_score_is_clamped_sum_witness :
  let s := parsed (Some "FILM") (Some "1") (Some "2") (Some "3") (Some "4") (Some "A") in
  _calculate_confidence s "a text of some length" = spec_score s "a text of some length"
  /\ PrimFloat.leb 0%float (_calculate_confidence s "a text of some length") = true
  /\ PrimFloat.leb (_calculate_confidence s "a text of some length") 1%float = true.
Proof.
  apply (C4_score_is_clamped_sum
           (parsed (Some "FILM") (Some "1") (Some "2") (Some "3") (Some "4") (Some "A"))
           "a text of some length").
  repeat split; discriminate.
Defined.

(** ** The order of the scores *)

Lemma ranks_agree_score_values : ranks_agree score_values = true.
Proof. vm_compute. reflexivity. Qed.

Lemma rank_spec a b :
  In a score_values -> In b score_values ->
  PrimFloat.ltb a b = (rank a <? rank b)
  /\ PrimFloat.leb a b = (rank a <=? rank b)
  /\ PrimFloat.eqb a b = (rank a =? rank b).
Proof.
  intros Ha Hb.
  pose proof ranks_agree_score_values as H. unfold ranks_agree in H.
  rewrite forallb_forall in H. specialize (H a Ha).
  rewrite forallb_forall in H. specialize (H b Hb).
  apply andb_prop in H. destruct H as [H H3].
  apply andb_prop in H. destruct H as [H1 H2].
  apply Bool.eqb_prop in H1, H2, H3. auto.
Qed.

Lemma ltb_rank a b :
  In a score_values -> In b score_values ->
  PrimFloat.ltb a b = (rank a <? rank b).
Proof. intros Ha Hb. apply (rank_spec a b Ha Hb). Qed.

Lemma leb_rank a b :
  In a score_values -> In b score_values ->
  PrimFloat.leb a b = (rank a <=? rank b).
Proof. intros Ha Hb. apply (rank_spec a b Ha Hb). Qed.

Lemma zero_in_values : In 0%float score_values.
Proof. left. reflexivity. Qed.

Lemma threshold_in_values : In 0.8%float score_values.
Proof. vm_compute. repeat first [left; reflexivity | right]. Qed.

Lemma score_in_values slate_info raw_text :
  In (_calculate_confidence slate_info raw_text) score_values.
Proof.
  unfold _calculate_confidence.
  destruct (10 <? len (strip raw_text)), (truthy (slate_number slate_info)),
    (truthy (scene slate_info)), (truthy (take slate_info)),
    (truthy (roll slate_info)), (truthy (camera slate_info)),
    (truthy (production slate_info));
    vm_compute; repeat first [left; reflexivity | right].
Qed.

Lemma analyze_frame_in_values env frame :
  In (confidence (analyze_frame env frame)) score_values.
Proof.
  unfold analyze_frame.
  destruct (negb (HAS_TESSERACT env) || negb (HAS_OPENCV env)); [apply zero_in_values|].
  destruct (image_to_string frame) as [e|text]; [apply zero_in_values|].
  apply score_in_values.
Qed.

(** The comparisons of two scores, turned into comparisons of ranks. *)
Ltac by_rank :=
  repeat match goal with
         | H : context [PrimFloat.ltb ?a ?b] |- _ =>
             rewrite (ltb_rank a b) in H by assumption
         | H : context [PrimFloat.leb ?a ?b] |- _ =>
             rewrite (leb_rank a b) in H by assumption
         | |- context [PrimFloat.ltb ?a ?b] => rewrite (ltb_rank a b) by assumption
         | |- context [PrimFloat.leb ?a ?b] => rewrite (leb_rank a b) by assumption
         end;
  repeat match goal with
         | H : (_ <? _) = true |- _ => apply Nat.ltb_lt in H
         | H : (_ <? _) = false |- _ => apply Nat.ltb_ge in H
         | H : (_ <=? _) = true |- _ => apply Nat.leb_le in H
         | H : (_ <=? _) = false |- _ => apply Nat.leb_gt in H
         end;
  try (apply Nat.ltb_lt || apply Nat.ltb_ge || apply Nat.leb_le || apply Nat.leb_gt);
  try lia.

(** ** The selector *)

Lemma sampling_loop_nil env max_frames n b :
  sampling_loop env max_frames [] n b = mkSampling (Ok b) [] [].
Proof. cbn. destruct (Z.of_nat n <? max_frames)%Z; reflexivity. Qed.

Lemma sampling_loop_cons env max_frames ev cap n b :
  sampling_loop env max_frames (ev :: cap) n b =
  if (Z.of_nat n <? max_frames)%Z then
    match ev with
    | ReadFails e => mkSampling (Raise e) cap []
    | Got frame =>
        if n mod 5 =? 0 then
          let slate_info := set_frame_number n (analyze_frame env frame) in
          let best :=
            if PrimFloat.ltb (confidence b) (confidence slate_info)
            then slate_info else b in
          if PrimFloat.ltb 0.8%float (confidence slate_info)
          then logged slate_info (mkSampling (Ok best) cap [])
          else logged slate_info (sampling_loop env max_frames cap (S n) best)
        else sampling_loop env max_frames cap (S n) b
    end
  else mkSampling (Ok b) (ev :: cap) [].
Proof. reflexivity. Qed.

Lemma analysed_logged s L : analysed (logged s L) = s :: analysed L.
Proof. reflexivity. Qed.

Lemma outcome_logged s L : outcome (logged s L) = outcome L.
Proof. reflexivity. Qed.

(** What the loop returns, against the best it started from and the
    candidates it analysed: either the starting best, and no candidate beat
    it; or a candidate that beat the starting best and every candidate before
    it, and that no later candidate beat. *)
Lemma sampling_loop_selects env max_frames cap :
  forall n b r,
    In (confidence b) score_values ->
    outcome (sampling_loop env max_frames cap n b) = Ok r ->
    In (confidence r) score_values
    /\ (forall c, In c (analysed (sampling_loop env max_frames cap n b)) ->
                  In (confidence c) score_values)
    /\ ((r = b /\
         forall c, In c (analysed (sampling_loop env max_frames cap n b)) ->
                   PrimFloat.ltb (confidence b) (confidence c) = false)
        \/
        exists earlier later,
          analysed (sampling_loop env max_frames cap n b) = earlier ++ r :: later
          /\ (forall c, In c earlier -> PrimFloat.ltb (confidence c) (confidence r) = true)
          /\ PrimFloat.ltb (confidence b) (confidence r) = true
          /\ (forall c, In c later -> PrimFloat.ltb (confidence r) (confidence c) = false)).
Proof.
  induction cap as [|ev cap IH]; intros n b r Hb Hout.
  - rewrite sampling_loop_nil in *. cbn in *. injection Hout as <-.
    split; [exact Hb|]. split; [intros c []|]. left. split; [reflexivity|intros c []].
  - rewrite sampling_loop_cons in *.
    destruct (Z.of_nat n <? max_frames)%Z.
    2:{ cbn in *. injection Hout as <-.
        split; [exact Hb|]. split; [intros c []|].
        left. split; [reflexivity|intros c []]. }
    destruct ev as [frame|e]; [|discriminate Hout].
    destruct (n mod 5 =? 0); [|now apply IH].
    cbv zeta in *.
    set (s := set_frame_number n (analyze_frame env frame)) in *.
    assert (Hs : In (confidence s) score_values) by apply analyze_frame_in_values.
    set (b1 := if PrimFloat.ltb (confidence b) (confidence s) then s else b) in *.
    assert (Hb1 : In (confidence b1) score_values)
      by (unfold b1; destruct (PrimFloat.ltb (confidence b) (confidence s)); assumption).
    assert (Hrest :
      forall L, outcome L = Ok r ->
        (In (confidence r) score_values
         /\ (forall c, In c (analysed L) -> In (confidence c) score_values)
         /\ ((r = b1 /\
              forall c, In c (analysed L) ->
                        PrimFloat.ltb (confidence b1) (confidence c) = false)
             \/ exists earlier later,
                 analysed L = earlier ++ r :: later
                 /\ (forall c, In c earlier ->
                               PrimFloat.ltb (confidence c) (confidence r) = true)
                 /\ PrimFloat.ltb (confidence b1) (confidence r) = true
                 /\ (forall c, In c later ->
                               PrimFloat.ltb (confidence r) (confidence c) = false))) ->
        In (confidence r) score_values
        /\ (forall c, In c (analysed (logged s L)) -> In (confidence c) score_values)
        /\ ((r = b /\
             forall c, In c (analysed (logged s L)) ->
                       PrimFloat.ltb (confidence b) (confidence c) = false)
            \/ exists earlier later,
                analysed (logged s L) = earlier ++ r :: later
                /\ (forall c, In c earlier ->
                              PrimFloat.ltb (confidence c) (confidence r) = true)
                /\ PrimFloat.ltb (confidence b) (confidence r) = true
                /\ (forall c, In c later ->
                              PrimFloat.ltb (confidence r) (confidence c) = false))).
    { intros L _ (Hr & Hall & Hcases).
      split; [exact Hr|].
      rewrite analysed_logged.
      assert (Hall' : forall c, In c (s :: analysed L) -> In (confidence c) score_values)
        by (intros c [<- | Hc]; auto).
      split; [exact Hall'|].
      unfold b1 in Hcases.
      destruct (PrimFloat.ltb (confidence b) (confidence s)) eqn:Hlt.
      - (* the candidate replaced the best *)
        right. destruct Hcases as [[-> Hno] | (earlier & later & HL & Hearlier & Hsr & Hlater)].
        + exists [], (analysed L). repeat split; auto.
        + exists (s :: earlier), later. rewrite HL. repeat split; auto.
          * intros c [<- | Hc]; auto.
          * by_rank.
      - (* the best stayed *)
        destruct Hcases as [[-> Hno] | (earlier & later & HL & Hearlier & Hbr & Hlater)].
        + left. split; [reflexivity|]. intros c [<- | Hc]; auto.
        + right. exists (s :: earlier), later. rewrite HL. repeat split; auto.
          intros c [<- | Hc]; auto. by_rank. }
    destruct (PrimFloat.ltb 0.8%float (confidence s)).
    + rewrite outcome_logged in Hout.
      apply Hrest; [exact Hout|].
      cbn [outcome analysed] in Hout |- *. injection Hout as <-.
      split; [exact Hb1|]. split; [intros c []|].
      left. split; [reflexivity|intros c []].
    + rewrite outcome_logged in Hout.
      apply Hrest; [exact Hout|].
      apply IH; [exact Hb1|exact Hout].
Qed.

(** The candidates of the log are the analyses of the frames read at the
    counts 0, 5, 10, ... below the cap, each stamped with its count. *)
Lemma analysed_are_sampled_frames env max_frames cap :
  forall n b c,
    In c (analysed (sampling_loop env max_frames cap n b)) ->
    n <= frame_number c
    /\ (Z.of_nat (frame_number c) < max_frames)%Z
    /\ frame_number c mod 5 = 0
    /\ exists frame,
        nth_error cap (frame_number c - n) = Some (Got frame)
        /\ c = set_frame_number (frame_number c) (analyze_frame env frame).
Proof.
  induction cap as [|ev cap IH]; intros n b c Hin.
  - rewrite sampling_loop_nil in Hin. destruct Hin.
  - rewrite sampling_loop_cons in Hin.
    destruct (Z.of_nat n <? max_frames)%Z eqn:Hcap; [|destruct Hin].
    apply Z.ltb_lt in Hcap.
    destruct ev as [frame|e]; [|destruct Hin].
    assert (Hlater :
      forall b', In c (analysed (sampling_loop env max_frames cap (S n) b')) ->
        n <= frame_number c
        /\ (Z.of_nat (frame_number c) < max_frames)%Z
        /\ frame_number c mod 5 = 0
        /\ exists frame0,
            nth_error (Got frame :: cap) (frame_number c - n) = Some (Got frame0)
            /\ c = set_frame_number (frame_number c) (analyze_frame env frame0)).
    { intros b' Hc. destruct (IH _ _ _ Hc) as (Hn & Hmax & Hmod & frame0 & Hnth & Hc0).
      repeat split; [lia | exact Hmax | exact Hmod |].
      exists frame0. split; [|exact Hc0].
      replace (frame_number c - n) with (S (frame_number c - S n)) by lia.
      exact Hnth. }
    destruct (n mod 5 =? 0) eqn:Hmod; [|now apply (Hlater b)].
    apply Nat.eqb_eq in Hmod. cbv zeta in Hin.
    assert (Hhere :
      set_frame_number n (analyze_frame env frame) = c ->
        n <= frame_number c
        /\ (Z.of_nat (frame_number c) < max_frames)%Z
        /\ frame_number c mod 5 = 0
        /\ exists frame0,
            nth_error (Got frame :: cap) (frame_number c - n) = Some (Got frame0)
            /\ c = set_frame_number (frame_number c) (analyze_frame env frame0)).
    { intros <-. cbn [frame_number set_frame_number].
      repeat split; [lia | exact Hcap | exact Hmod |].
      exists frame. rewrite Nat.sub_diag. split; reflexivity. }
    destruct (PrimFloat.ltb 0.8%float
                (confidence (set_frame_number n (analyze_frame env frame))));
      rewrite analysed_logged in Hin; destruct Hin as [Hc | Hc]; auto.
    + destruct Hc.
    + eapply Hlater, Hc.
Qed.

(** The early exit, for a loop whose starting best is not above 0.8: a
    candidate above 0.8 is the last one analysed, it is what the loop
    returns, and the capture is left with every read after that frame's. *)
Lemma sampling_loop_early_exit env max_frames cap :
  forall n b c,
    In (confidence b) score_values ->
    PrimFloat.ltb 0.8%float (confidence b) = false ->
    In c (analysed (sampling_loop env max_frames cap n b)) ->
    PrimFloat.ltb 0.8%float (confidence c) = true ->
    outcome (sampling_loop env max_frames cap n b) = Ok c
    /\ (exists earlier, analysed (sampling_loop env max_frames cap n b) = earlier ++ [c])
    /\ n <= frame_number c
    /\ unread (sampling_loop env max_frames cap n b) = skipn (S (frame_number c - n)) cap.
Proof.
  induction cap as [|ev cap IH]; intros n b c Hb Hlow Hin Hhigh.
  - rewrite sampling_loop_nil in Hin. destruct Hin.
  - rewrite sampling_loop_cons in *.
    destruct (Z.of_nat n <? max_frames)%Z; [|destruct Hin].
    destruct ev as [frame|e]; [|destruct Hin].
    assert (Hlater :
      forall b',
        In (confidence b') score_values ->
        PrimFloat.ltb 0.8%float (confidence b') = false ->
        In c (analysed (sampling_loop env max_frames cap (S n) b')) ->
        outcome (sampling_loop env max_frames cap (S n) b') = Ok c
        /\ (exists earlier,
              analysed (sampling_loop env max_frames cap (S n) b') = earlier ++ [c])
        /\ n <= frame_number c
        /\ unread (sampling_loop env max_frames cap (S n) b')
           = skipn (S (frame_number c - n)) (Got frame :: cap)).
    { intros b' Hb' Hlow' Hc.
      destruct (IH _ _ _ Hb' Hlow' Hc Hhigh) as (Hout & Hlast & Hn & Hunread).
      repeat split; [exact Hout | exact Hlast | lia |].
      rewrite Hunread.
      replace (frame_number c - n) with (S (frame_number c - S n)) by lia.
      reflexivity. }
    destruct (n mod 5 =? 0); [|now apply Hlater].
    cbv zeta in *.
    set (s := set_frame_number n (analyze_frame env frame)) in *.
    assert (Hs : In (confidence s) score_values) by apply analyze_frame_in_values.
    pose proof threshold_in_values as H08.
    destruct (PrimFloat.ltb 0.8%float (confidence s)) eqn:Hexit.
    + (* the exit: the log holds this candidate alone *)
      rewrite analysed_logged in Hin. destruct Hin as [<- | []].
      assert (Hreplace : PrimFloat.ltb (confidence b) (confidence s) = true) by by_rank.
      rewrite Hreplace.
      repeat split.
      * exists []. reflexivity.
      * unfold s. cbn [frame_number set_frame_number]. lia.
      * unfold s. cbn [frame_number set_frame_number unread logged].
        rewrite Nat.sub_diag. reflexivity.
    + rewrite analysed_logged in Hin. destruct Hin as [<- | Hc]; [congruence|].
      set (b1 := if PrimFloat.ltb (confidence b) (confidence s) then s else b) in *.
      assert (Hb1 : In (confidence b1) score_values)
        by (unfold b1; destruct (PrimFloat.ltb (confidence b) (confidence s)); assumption).
      assert (Hlow1 : PrimFloat.ltb 0.8%float (confidence b1) = false)
        by (unfold b1; destruct (PrimFloat.ltb (confidence b) (confidence s)); assumption).
      destruct (Hlater b1 Hb1 Hlow1 Hc) as (Hout & (earlier & Hlast) & Hn & Hunread).
      rewrite outcome_logged, analysed_logged.
      repeat split; [exact Hout | | exact Hn | exact Hunread].
      exists (s :: earlier). rewrite Hlast. reflexivity.
Qed.

Lemma analyze_video_for_slate_Ok env video_path max_frames best :
  analyze_video_for_slate env video_path max_frames = Ok best ->
  outcome (analyze_video_sampling env video_path max_frames) = Ok best.
Proof.
  unfold analyze_video_for_slate.
  destruct (negb (HAS_OPENCV env)); [discriminate|].
  destruct (negb (path_exists env video_path)); [discriminate|auto].
Qed.

(** Every sampled frame the loop reaches is analysed: the log holds the
    candidate of each frame read at a sampled count, as long as no sampled
    frame before it has a confidence above 0.8. *)
Lemma sampling_loop_complete env max_frames cap :
  forall n b r i frame,
    outcome (sampling_loop env max_frames cap n b) = Ok r ->
    nth_error cap i = Some (Got frame) ->
    (n + i) mod 5 = 0 ->
    (Z.of_nat (n + i) < max_frames)%Z ->
    (forall j frame_j,
        j < i -> (n + j) mod 5 = 0 -> nth_error cap j = Some (Got frame_j) ->
        PrimFloat.ltb 0.8%float (confidence (analyze_frame env frame_j)) = false) ->
    In (set_frame_number (n + i) (analyze_frame env frame))
       (analysed (sampling_loop env max_frames cap n b)).
Proof.
  induction cap as [|ev cap IH]; intros n b r i frame Hout Hnth Hmod Hmax Hbefore.
  - destruct i; discriminate Hnth.
  - rewrite sampling_loop_cons in *.
    destruct (Z.of_nat n <? max_frames)%Z eqn:Hcap; [|apply Z.ltb_ge in Hcap; lia].
    destruct ev as [frame0|e]; [|discriminate Hout].
    assert (Hlater :
      forall b' i',
        i = S i' ->
        outcome (sampling_loop env max_frames cap (S n) b') = Ok r ->
        In (set_frame_number (n + i) (analyze_frame env frame))
           (analysed (sampling_loop env max_frames cap (S n) b'))).
    { intros b' i' -> Hout'.
      replace (n + S i') with (S n + i') in * by lia.
      apply (IH (S n) b' r i' frame Hout' Hnth Hmod Hmax).
      intros j frame_j Hj Hjmod Hjnth.
      apply (Hbefore (S j) frame_j); [lia | | exact Hjnth].
      replace (n + S j) with (S n + j) by lia. exact Hjmod. }
    destruct (n mod 5 =? 0) eqn:Hn.
    + cbv zeta in *.
      destruct i as [|i'].
      * cbn [nth_error] in Hnth. injection Hnth as ->. rewrite Nat.add_0_r.
        destruct (PrimFloat.ltb 0.8%float
                    (confidence (set_frame_number n (analyze_frame env frame))));
          rewrite analysed_logged; now left.
      * assert (Hno : PrimFloat.ltb 0.8%float (confidence (analyze_frame env frame0)) = false).
        { apply (Hbefore 0 frame0); [lia | | reflexivity].
          rewrite Nat.add_0_r. now apply Nat.eqb_eq. }
        change (confidence (set_frame_number n (analyze_frame env frame0)))
          with (confidence (analyze_frame env frame0)) in *.
        rewrite Hno in *. rewrite outcome_logged in Hout. rewrite analysed_logged.
        right. exact (Hlater _ i' eq_refl Hout).
    + destruct i as [|i'].
      * rewrite Nat.add_0_r in Hmod. apply Nat.eqb_neq in Hn. contradiction.
      * exact (Hlater b i' eq_refl Hout).
Qed.

(** No sampled frame read before a candidate of the log has a confidence
    above 0.8. *)
Lemma sampling_loop_before_exit env max_frames cap :
  forall n b c j frame_j,
    In c (analysed (sampling_loop env max_frames cap n b)) ->
    n + j < frame_number c ->
    (n + j) mod 5 = 0 ->
    nth_error cap j = Some (Got frame_j) ->
    PrimFloat.ltb 0.8%float (confidence (analyze_frame env frame_j)) = false.
Proof.
  induction cap as [|ev cap IH]; intros n b c j frame_j Hin Hlt Hmod Hnth.
  - destruct j; discriminate Hnth.
  - rewrite sampling_loop_cons in Hin.
    destruct (Z.of_nat n <? max_frames)%Z; [|destruct Hin].
    destruct ev as [frame0|e]; [|destruct Hin].
    assert (Hlater :
      forall b' j',
        j = S j' ->
        In c (analysed (sampling_loop env max_frames cap (S n) b')) ->
        PrimFloat.ltb 0.8%float (confidence (analyze_frame env frame_j)) = false).
    { intros b' j' -> Hc. apply (IH (S n) b' c j' frame_j Hc); [lia | | exact Hnth].
      replace (S n + j') with (n + S j') by lia. exact Hmod. }
    destruct (n mod 5 =? 0) eqn:Hn.
    + cbv zeta in Hin.
      change (confidence (set_frame_number n (analyze_frame env frame0)))
        with (confidence (analyze_frame env frame0)) in Hin.
      destruct (PrimFloat.ltb 0.8%float (confidence (analyze_frame env frame0))) eqn:Hexit;
        rewrite analysed_logged in Hin; destruct Hin as [<- | Hc];
        try (cbn [frame_number set_frame_number] in Hlt; lia).
      * destruct Hc.
      * destruct j as [|j'].
        -- cbn [nth_error] in Hnth. injection Hnth as <-. exact Hexit.
        -- exact (Hlater _ j' eq_refl Hc).
    + destruct j as [|j'].
      * rewrite Nat.add_0_r in Hmod. apply Nat.eqb_neq in Hn. contradiction.
      * exact (Hlater b j' eq_refl Hin).
Qed.

(** The candidates stand in the log in the order of their frame numbers. *)
Lemma analysed_increasing env max_frames cap :
  forall n b earlier c later x,
    analysed (sampling_loop env max_frames cap n b) = earlier ++ c :: later ->
    (In x earlier -> frame_number x < frame_number c)
    /\ (In x later -> frame_number c < frame_number x).
Proof.
  induction cap as [|ev cap IH]; intros n b earlier c later x Hlog.
  - rewrite sampling_loop_nil in Hlog. destruct earlier; discriminate Hlog.
  - assert (Hge : forall b' y,
              In y (analysed (sampling_loop env max_frames cap (S n) b')) ->
              S n <= frame_number y)
      by (intros b' y Hy; apply (analysed_are_sampled_frames _ _ _ _ _ _ Hy)).
    rewrite sampling_loop_cons in Hlog.
    destruct (Z.of_nat n <? max_frames)%Z; [|destruct earlier; discriminate Hlog].
    destruct ev as [frame0|e]; [|destruct earlier; discriminate Hlog].
    destruct (n mod 5 =? 0); [|now apply (IH (S n) b)].
    cbv zeta in Hlog.
    destruct (PrimFloat.ltb 0.8%float
                (confidence (set_frame_number n (analyze_frame env frame0))));
      rewrite analysed_logged in Hlog.
    + destruct earlier as [|e0 [|e1 earlier]]; try discriminate Hlog.
      injection Hlog as <- <-. split; intros [].
    + destruct earlier as [|e0 earlier].
      * injection Hlog as <- Hrest. split; [intros []|].
        intros Hx. rewrite <- Hrest in Hx. apply Hge in Hx.
        cbn [frame_number set_frame_number]. lia.
      * injection Hlog as <- Hrest.
        destruct (IH (S n) _ earlier c later x Hrest) as [H1 H2].
        split; [|exact H2].
        intros [<- | Hx]; [|now apply H1].
        assert (Hc : S n <= frame_number c).
        { eapply Hge. rewrite Hrest. apply in_or_app. right. now left. }
        cbn [frame_number set_frame_number]. lia.
Qed.

(** C5: the frames the selector considers are those read at a sampled count
    with no sampled frame of a confidence above 0.8 before them, and the
    candidates it analysed are exactly the analyses of those frames, each
    stamped with its count.  The SlateInfo returned has a confidence greater
    than or equal to that of every considered frame.  It is either the
    default SlateInfo, no considered frame having a confidence above 0, or
    the analysis of a considered frame whose confidence is strictly greater
    than that of every considered frame before it: of several frames of the
    greatest confidence the first is returned. *)
Theorem C5_best_candidate_is_first_maximum :
  forall (env : Env) (video_path : string) (max_frames : Z) (best : SlateInfo),
    analyze_video_for_slate env video_path max_frames = Ok best ->
    let cap := VideoCapture env video_path in
    let considered := analysed (analyze_video_sampling env video_path max_frames) in
    (forall c, In c considered <->
               exists i frame,
                 considered_frame env cap max_frames i frame
                 /\ c = set_frame_number i (analyze_frame env frame))
    /\ (forall i frame,
          considered_frame env cap max_frames i frame ->
          PrimFloat.leb (confidence (analyze_frame env frame)) (confidence best) = true
          /\ (i < frame_number best ->
              PrimFloat.ltb (confidence (analyze_frame env frame)) (confidence best) = true))
    /\ (best = SlateInfo_default
        \/ exists frame,
             considered_frame env cap max_frames (frame_number best) frame
             /\ best = set_frame_number (frame_number best) (analyze_frame env frame))
    /\ (forall c, In c considered ->
                  PrimFloat.leb (confidence c) (confidence best) = true)
    /\ ((best = SlateInfo_default
         /\ forall c, In c considered -> PrimFloat.ltb 0%float (confidence c) = false)
        \/ exists earlier later,
             considered = earlier ++ best :: later
             /\ (forall c, In c earlier ->
                           PrimFloat.ltb (confidence c) (confidence best) = true)
             /\ (forall c, In c later ->
                           PrimFloat.leb (confidence c) (confidence best) = true)).
Proof.
  intros env video_path max_frames best Hret cap considered.
  apply analyze_video_for_slate_Ok in Hret.
  unfold considered, cap, analyze_video_sampling in *.
  set (video := VideoCapture env video_path) in *.
  destruct (sampling_loop_selects env max_frames video 0 SlateInfo_default best
              zero_in_values Hret) as (Hbest & Hall & Hcases).
  pose proof zero_in_values as H0.
  change (confidence SlateInfo_default) with 0%float in Hcases.
  (* the log against the capture *)
  assert (Hlog :
    forall c, In c (analysed (sampling_loop env max_frames video 0 SlateInfo_default)) <->
              exists i frame,
                considered_frame env video max_frames i frame
                /\ c = set_frame_number i (analyze_frame env frame)).
  { intros c. split.
    - intros Hc.
      destruct (analysed_are_sampled_frames env max_frames video 0 SlateInfo_default c Hc)
        as (_ & Hmax & Hmod & frame & Hnth & Heq).
      rewrite Nat.sub_0_r in Hnth.
      exists (frame_number c), frame. split; [|exact Heq].
      repeat split; try assumption.
      intros j frame_j Hj Hjmod Hjnth.
      apply (sampling_loop_before_exit env max_frames video 0 SlateInfo_default
               c j frame_j Hc); assumption.
    - intros (i & frame & (Hnth & Hmod & Hmax & Hbefore) & ->).
      apply (sampling_loop_complete env max_frames video 0 SlateInfo_default best
               i frame Hret Hnth Hmod Hmax).
      intros j frame_j Hj Hjmod Hjnth. now apply (Hbefore j frame_j). }
  (* the result against the log *)
  assert (Hmaxlog :
    forall c, In c (analysed (sampling_loop env max_frames video 0 SlateInfo_default)) ->
              PrimFloat.leb (confidence c) (confidence best) = true).
  { intros c Hc. specialize (Hall c Hc).
    destruct Hcases as [[-> Hno] | (earlier & later & HL & Hearlier & Hpos & Hlater)].
    - specialize (Hno c Hc). change (confidence SlateInfo_default) with 0%float. by_rank.
    - rewrite HL in Hc. apply in_app_or in Hc. destruct Hc as [Hc | [<- | Hc]].
      + specialize (Hearlier c Hc). by_rank.
      + by_rank.
      + specialize (Hlater c Hc). by_rank. }
  split; [exact Hlog|]. split; [|split; [|split; [exact Hmaxlog|]]].
  - intros i frame Hcons.
    assert (Hin : In (set_frame_number i (analyze_frame env frame))
                     (analysed (sampling_loop env max_frames video 0 SlateInfo_default)))
      by (apply Hlog; now exists i, frame).
    split; [exact (Hmaxlog _ Hin)|].
    intros Hlt.
    destruct Hcases as [[-> _] | (earlier & later & HL & Hearlier & _ & _)];
      [cbn in Hlt; lia|].
    destruct (analysed_increasing env max_frames video 0 SlateInfo_default earlier best later
                (set_frame_number i (analyze_frame env frame)) HL) as [_ Hafter].
    rewrite HL in Hin. apply in_app_or in Hin. destruct Hin as [Hin | [Heq | Hin]].
    + exact (Hearlier _ Hin).
    + rewrite Heq in Hlt. cbn [frame_number set_frame_number] in Hlt. lia.
    + apply Hafter in Hin. cbn [frame_number set_frame_number] in Hin. lia.
  - destruct Hcases as [[-> _] | (earlier & later & HL & _ & _ & _)]; [now left|].
    right.
    assert (Hin : In best (analysed (sampling_loop env max_frames video 0 SlateInfo_default)))
      by (rewrite HL; apply in_or_app; right; now left).
    apply Hlog in Hin. destruct Hin as (i & frame & Hcons & Heq).
    assert (Hi : frame_number best = i) by (rewrite Heq; reflexivity).
    rewrite Hi. now exists frame.
  - destruct Hcases as [[-> Hno] | (earlier & later & HL & Hearlier & Hpos & Hlater)].
    + left. split; [reflexivity | exact Hno].
    + right. exists earlier, later. repeat split; [exact HL | exact Hearlier |].
      intros c Hc. apply Hmaxlog. rewrite HL. apply in_or_app. right. now right.
Qed.

(** C5 at a clip whose frame 0 scores 0.3 and whose frames 5 and 10 both
    score 0.5: the candidate of frame 5 is returned. *)
Lemma C5_best_candidate_is_first_maximum_witness :
  let env := rising_env in
  let max_frames := 30%Z in
  let best :=
    set_frame_number 5 (analyze_frame rising_env (frame_of_text "SCENE 5A TAKE 3")) in
  let cap := VideoCapture rising_env "/media/rising.mov" in
  let considered := analysed (analyze_video_sampling rising_env "/media/rising.mov" 30) in
  (forall c, In c considered <->
             exists i frame,
               considered_frame env cap max_frames i frame
               /\ c = set_frame_number i (analyze_frame env frame))
  /\ (forall i frame,
        considered_frame env cap max_frames i frame ->
        PrimFloat.leb (confidence (analyze_frame env frame)) (confidence best) = true
        /\ (i < frame_number best ->
            PrimFloat.ltb (confidence (analyze_frame env frame)) (confidence best) = true))
  /\ (best = SlateInfo_default
      \/ exists frame,
           considered_frame env cap max_frames (frame_number best) frame
           /\ best = set_frame_number (frame_number best) (analyze_frame env frame))
  /\ (forall c, In c considered -> PrimFloat.leb (confidence c) (confidence best) = true)
  /\ ((best = SlateInfo_default
       /\ forall c, In c considered -> PrimFloat.ltb 0%float (confidence c) = false)
      \/ exists earlier later,
           considered = earlier ++ best :: later
           /\ (forall c, In c earlier ->
                         PrimFloat.ltb (confidence c) (confidence best) = true)
           /\ (forall c, In c later ->
                         PrimFloat.leb (confidence c) (confidence best) = true)).
Proof.
  apply (C5_best_candidate_is_first_maximum rising_env "/media/rising.mov" 30
           (set_frame_number 5
              (analyze_frame rising_env (frame_of_text "SCENE 5A TAKE 3")))).
  vm_compute. reflexivity.
Defined.

(** The candidates of the tied clip: the scores 0.3, 0.3 and 0.1 at the
    counts 0, 5 and 10; the returned one carries the take of frame 0. *)
Lemma tied_capture_run :
  map (fun c => (frame_number c, confidence c, take c))
      (analysed (analyze_video_sampling sample_env "/media/tied.mov" 30))
  = [(0, (0.1 + 0.2)%float, Some "3"); (5, (0.1 + 0.2)%float, Some "4");
     (10, 0.1%float, None)]
  /\ option_map (fun c => (frame_number c, take c))
       (match analyze_video_for_slate sample_env "/media/tied.mov" 30 with
        | Ok c => Some c
        | Raise _ => None
        end)
     = Some (0, Some "3").
Proof. split; vm_compute; reflexivity. Qed.

(** C6: once a candidate analysed for a clip has a confidence above 0.8, it
    is the last candidate analysed, the capture keeps every read that follows
    that frame's, none of them made, and that candidate is what the selector
    returns. *)
Theorem C6_early_exit :
  forall (env : Env) (video_path : string) (max_frames : Z) (c : SlateInfo),
    let run := analyze_video_sampling env video_path max_frames in
    In c (analysed run) ->
    PrimFloat.ltb 0.8%float (confidence c) = true ->
    (exists earlier, analysed run = earlier ++ [c])
    /\ unread run = skipn (S (frame_number c)) (VideoCapture env video_path)
    /\ analyze_video_for_slate env video_path max_frames = Ok c.
Proof.
  intros env video_path max_frames c run Hin Hhigh.
  unfold run, analyze_video_sampling in *.
  destruct (sampling_loop_early_exit env max_frames _ 0 SlateInfo_default c
              zero_in_values eq_refl Hin Hhigh) as (Hout & Hlast & _ & Hunread).
  rewrite Nat.sub_0_r in Hunread.
  repeat split; [exact Hlast | exact Hunread |].
  destruct (analysed_are_sampled_frames env max_frames _ _ _ _ Hin)
    as (_ & _ & _ & frame & Hnth & Hc).
  unfold analyze_video_for_slate, analyze_video_sampling.
  destruct (HAS_OPENCV env) eqn:Hcv.
  - cbn [negb]. unfold VideoCapture, path_exists in *.
    destruct (video_at env video_path); [exact Hout|].
    destruct (frame_number c - 0); discriminate Hnth.
  - (* without OpenCV no candidate has a confidence above 0 *)
    exfalso. rewrite Hc in Hhigh. unfold analyze_frame in Hhigh.
    rewrite Hcv, orb_true_r in Hhigh. discriminate Hhigh.
Qed.

(** C6 at a clip with a full slate at frame 5 and a failing read after it:
    the read that would raise is never made. *)
Lemma C6_early_exit_witness :
  let c := set_frame_number 5 (analyze_frame sample_env (frame_of_text full_slate)) in
  let run := analyze_video_sampling sample_env "/media/slate.mov" 30 in
  (exists earlier, analysed run = earlier ++ [c])
  /\ unread run = skipn 6 slate_capture
  /\ analyze_video_for_slate sample_env "/media/slate.mov" 30 = Ok c.
Proof.
  apply (C6_early_exit sample_env "/media/slate.mov" 30
           (set_frame_number 5 (analyze_frame sample_env (frame_of_text full_slate)))).
  - vm_compute. right. left. reflexivity.
  - vm_compute. reflexivity.
Defined.

(** ** The name generator *)

(** C7: when production, scene, slate_number, take and camera are all
    absent, the generated name is the original name. *)
Theorem C7_identity_without_fields :
  forall (slate_info : SlateInfo) (original_name : string),
    production slate_info = None ->
    scene slate_info = None ->
    slate_number slate_info = None ->
    take slate_info = None ->
    camera slate_info = None ->
    ClipRenamer.generate_clip_name slate_info original_name = original_name.
Proof.
  intros slate_info original_name Hp Hs Hn Ht Hc.
  unfold ClipRenamer.generate_clip_name.
  rewrite Hp, Hs, Hn, Ht, Hc. reflexivity.
Qed.

(** C7 at the default SlateInfo with a roll and a confidence, which do not
    take part in the name. *)
Lemma C7_identity_without_fields_witness :
  ClipRenamer.generate_clip_name
    (set_confidence 0.1%float (set_roll "12" SlateInfo_default)) "MVI_1234.mov"
  = "MVI_1234.mov".
Proof.
  apply (C7_identity_without_fields
           (set_confidence 0.1%float (set_roll "12" SlateInfo_default)) "MVI_1234.mov");
    reflexivity.
Defined.

(** The examples of the specification for the name generator. *)
Lemma generate_clip_name_examples :
  ClipRenamer.generate_clip_name
    (parsed None None (Some "5") (Some "3") None (Some "A")) "MVI_1234.mov"
  = "Scene_5_Take_3_Cam_A.mov"
  /\ ClipRenamer.generate_clip_name
       (parsed None None (Some "5") None None None) "foo_bar.mov"
     = "Scene_5.mov"
  /\ ClipRenamer.generate_clip_name
       (parsed (Some "MY FILM") (Some "23") None (Some "3") None None) "clip"
     = "MY FILM_Slate_23_Take_3".
Proof. repeat split; reflexivity. Qed.

(** ** The batch *)

Lemma file_missing_inv env clip clip_path :
  GetFilePath clip = Ok clip_path ->
  file_missing env clip ->
  negb (truthy clip_path) || negb (path_exists env (ClipRenamer.value clip_path)) = true.
Proof.
  intros Hpath (p & Hp & Hmiss).
  rewrite Hpath in Hp. injection Hp as <-.
  destruct Hmiss as [-> | ->]; [reflexivity | apply orb_true_r].
Qed.

Lemma analysis_of_inv env clip clip_path a :
  GetFilePath clip = Ok clip_path ->
  analysis_of env clip a ->
  negb (truthy clip_path) || negb (path_exists env (ClipRenamer.value clip_path)) = false
  /\ a = analyze_video_for_slate env (ClipRenamer.value clip_path) default_max_frames.
Proof.
  intros Hpath (path & Hp & Hne & Hex & Ha).
  rewrite Hpath in Hp. injection Hp as ->.
  cbn [truthy ClipRenamer.value]. rewrite Hne, Hex. auto.
Qed.

(** Closes one clause of [recorded] in one branch of [process_clip]: the
    clause's premises either contradict the branch or name its values. *)
Ltac recorded_clause Hpath :=
  cbv zeta; intros;
  repeat match goal with
         | H : file_missing _ _ |- _ => apply (file_missing_inv _ _ _ Hpath) in H
         | H : analysis_of _ _ _ |- _ =>
             apply (analysis_of_inv _ _ _ _ Hpath) in H; destruct H
         end;
  cbn [original_name status reason new_name with_outcome] in *;
  try congruence;
  try (split; congruence).

Ltac appended_entry :=
  match goal with
  | |- exists c, append_result ?x _ = _ /\ _ => exists x; split; [reflexivity|]
  end.

(** One turn of the loop over the clips, when no exception leaves it: the
    report grows by one entry, which accounts for the clip, and the counters
    move with the entry's status. *)
Lemma process_clip_Ok env dry_run clip r r' :
  process_clip env dry_run clip r = Ok r' ->
  exists c, r' = step_results r c /\ recorded env dry_run clip c.
Proof.
  unfold process_clip.
  destruct (GetName clip) as [e|clip_name] eqn:Hname; [discriminate|].
  destruct (GetFilePath clip) as [e|clip_path] eqn:Hpath; [discriminate|].
  cbn [bind].
  destruct (negb (truthy clip_path) ||
            negb (path_exists env (ClipRenamer.value clip_path))) eqn:Hfile.
  { intros [= <-]. appended_entry.
    unfold recorded. repeat apply conj; try recorded_clause Hpath.
    right. discriminate. }
  destruct (analyze_video_for_slate env (ClipRenamer.value clip_path) default_max_frames)
    as [e|slate_info] eqn:Hana.
  { intros [= <-]. appended_entry.
    unfold recorded. repeat apply conj; try recorded_clause Hpath.
    right. discriminate. }
  destruct (PrimFloat.ltb (confidence slate_info) 0.3%float) eqn:Hlow.
  { intros [= <-]. appended_entry.
    unfold recorded. repeat apply conj; try recorded_clause Hpath.
    right. discriminate. }
  destruct (String.eqb (ClipRenamer.generate_clip_name slate_info clip_name) clip_name)
    eqn:Hsame.
  { intros [= <-]. appended_entry.
    unfold recorded. repeat apply conj; try recorded_clause Hpath.
    right. discriminate. }
  destruct dry_run; cbn [negb].
  { intros [= <-]. appended_entry.
    unfold recorded. repeat apply conj; try recorded_clause Hpath.
    left. reflexivity. }
  destruct (rename_clip clip (ClipRenamer.generate_clip_name slate_info clip_name))
    eqn:Hrename.
  { intros [= <-]. appended_entry.
    unfold recorded. repeat apply conj; try recorded_clause Hpath.
    left. reflexivity. }
  { intros [= <-]. appended_entry.
    unfold recorded. repeat apply conj; try recorded_clause Hpath.
    right. discriminate. }
Qed.

Lemma process_clip_answers env dry_run clip r :
  lookups_answer clip -> exists r', process_clip env dry_run clip r = Ok r'.
Proof.
  intros ((name & Hname) & (path & Hpath)).
  unfold process_clip. rewrite Hname, Hpath. cbn [bind].
  repeat match goal with
         | |- context [if ?b then _ else _] => destruct b
         | |- context [match ?a with Raise _ => _ | Ok _ => _ end] => destruct a
         end; eexists; reflexivity.
Qed.




(** The report of the five sample clips: renamed, skipped for a missing
    file, skipped for a low confidence, an analysis error, a failed rename. *)
Lemma sample_batch_report :
  match analyze_clips_and_rename sample_env (Ok sample_clips) false with
  | BatchResult r =>
      (analyzed_clips r, successful_renames r, failed_renames r,
       map (fun c => (original_name c, status c, reason c, new_name c)) (clip_results r))
      = (5, 1, 2,
         [ ("A001.mov", renamed, None,
            Some "MY AWESOME FILM_Scene_5A_Take_3_Cam_A.mov");
           ("A002.mov", skipped, Some FileMissing, None);
           ("A003.mov", skipped, Some (LowConfidence 0%float), None);
           ("A004.mov", error, Some (AnalysisError (Exception "decode error")), None);
           ("A005.mov", error, Some RenameFailed,
            Some "MY AWESOME FILM_Scene_5A_Take_3_Cam_A.mov") ])
  | BatchError _ => False
  end.
Proof. vm_compute. reflexivity. Qed.


(** *** The counters *)

Lemma count_app p l c : count p (l ++ [c]) = bump (p c) (count p l).
Proof.
  unfold count. rewrite filter_app, length_app. cbn [filter].
  destruct (p c); cbn [length bump]; lia.
Qed.

Lemma batch_invariant_init : batch_invariant results_init.
Proof. repeat split; cbn; lia. Qed.

Lemma batch_invariant_step r c :
  batch_invariant r -> batch_invariant (step_results r c).
Proof.
  intros (Hn & Hs & Hf & Hle).
  unfold batch_invariant, step_results.
  cbn [analyzed_clips successful_renames failed_renames clip_results].
  rewrite !count_app, length_app, <- Hn, <- Hs, <- Hf.
  unfold is_renamed, is_error. cbn [length].
  destruct (status c); cbn [bump]; repeat split; lia.
Qed.

Lemma process_clips_invariant env dry_run clips :
  forall r r',
    batch_invariant r ->
    process_clips env dry_run clips r = Ok r' ->
    batch_invariant r'.
Proof.
  induction clips as [|clip rest IH]; intros r r' Hinv Hrun.
  - injection Hrun as <-. exact Hinv.
  - cbn [process_clips] in Hrun.
    destruct (process_clip env dry_run clip r) as [e|r1] eqn:Hstep; [discriminate|].
    destruct (process_clip_Ok _ _ _ _ _ Hstep) as (c & -> & _).
    apply (IH _ _ (batch_invariant_step r c Hinv) Hrun).
Qed.

(** C9: the report a batch returns satisfies the invariant, analyzed_clips
    equal to the number of entries and successful_renames + failed_renames at
    most analyzed_clips, the first counting the renamed entries and the
    second the error entries; the invariant holds at the start and is kept by
    every clip processed, and a clip that is skipped moves neither counter. *)
Theorem C9_batch_invariant :
  forall (env : Env) (dry_run : bool),
    batch_invariant results_init
    /\ (forall clip r r',
          batch_invariant r ->
          process_clip env dry_run clip r = Ok r' ->
          batch_invariant r'
          /\ exists c,
               clip_results r' = clip_results r ++ [c]
               /\ (status c = skipped ->
                   successful_renames r' = successful_renames r
                   /\ failed_renames r' = failed_renames r))
    /\ (forall folder r,
          analyze_clips_and_rename env folder dry_run = BatchResult r ->
          batch_invariant r).
Proof.
  intros env dry_run. split; [apply batch_invariant_init|]. split.
  - intros clip r r' Hinv Hstep.
    destruct (process_clip_Ok _ _ _ _ _ Hstep) as (c & -> & _).
    split; [now apply batch_invariant_step|].
    exists c. split; [reflexivity|].
    intros Hskip. unfold step_results, is_renamed, is_error.
    cbn [successful_renames failed_renames]. rewrite Hskip. split; reflexivity.
  - intros folder r. unfold analyze_clips_and_rename.
    destruct (negb (HAS_OPENCV env) || negb (HAS_TESSERACT env)); [discriminate|].
    destruct folder as [e|clips]; cbn [bind]; [discriminate|].
    destruct clips as [|clip rest]; [discriminate|].
    destruct (process_clips env dry_run (clip :: rest) results_init) as [e|r0] eqn:Hrun;
      cbn [bind]; [discriminate|].
    intros [= <-].
    apply (process_clips_invariant _ _ _ _ _ batch_invariant_init Hrun).
Qed.

(** C9 at the report of the five sample clips. *)
Lemma C9_batch_invariant_witness :
  batch_invariant
    (match analyze_clips_and_rename sample_env (Ok sample_clips) false with
     | BatchResult r => r
     | BatchError _ => results_init
     end).
Proof.
  apply (proj2 (proj2 (C9_batch_invariant sample_env false)) (Ok sample_clips)).
  vm_compute. reflexivity.
Defined.

(** * Further properties of the code *)

(** ** What a parse holds *)

Lemma value_ok_None check : value_ok check None.
Proof. intros v H. discriminate H. Qed.

Lemma value_ok_Some (check : string -> bool) v : check v = true -> value_ok check (Some v).
Proof. intros H w [= <-]. exact H. Qed.

(** Upper-casing, character by character. *)
Lemma upper_char_idem c : upper_char (upper_char c) = upper_char c.
Proof. destruct c as [[] [] [] [] [] [] [] []]; reflexivity. Qed.

Lemma is_space_upper_char c : is_space (upper_char c) = is_space c.
Proof. destruct c as [[] [] [] [] [] [] [] []]; reflexivity. Qed.

Lemma eqb_LF_upper_char c : Ascii.eqb "010" (upper_char c) = Ascii.eqb "010" c.
Proof. destruct c as [[] [] [] [] [] [] [] []]; reflexivity. Qed.

Lemma upper_idem s : upper (upper s) = upper s.
Proof. induction s as [|c r IH]; cbn; [reflexivity|]. now rewrite upper_char_idem, IH. Qed.

Lemma lstrip_upper s : lstrip_by is_space (upper s) = upper (lstrip_by is_space s).
Proof.
  induction s as [|c r IH]; cbn; [reflexivity|].
  rewrite is_space_upper_char. destruct (is_space c); [exact IH | reflexivity].
Qed.

Lemma rstrip_upper s : rstrip_by is_space (upper s) = upper (rstrip_by is_space s).
Proof.
  induction s as [|c r IH]; cbn; [reflexivity|].
  rewrite IH, is_space_upper_char.
  destruct (rstrip_by is_space r); cbn; [destruct (is_space c)|]; reflexivity.
Qed.

Lemma strip_upper s : strip (upper s) = upper (strip s).
Proof. unfold strip, strip_by. now rewrite lstrip_upper, rstrip_upper. Qed.

Lemma split_lines_upper s : split_on "010" (upper s) = map upper (split_on "010" s).
Proof.
  induction s as [|c r IH]; [reflexivity|].
  cbn [split_on upper]. rewrite eqb_LF_upper_char, IH.
  destruct (Ascii.eqb "010" c); [reflexivity|].
  destruct (split_on "010" r); reflexivity.
Qed.

Lemma process_line_invariant (P : SlateInfo -> Prop) raw_line st :
  (forall word next st, P st -> P (slate_scene_rule word next st)) ->
  (forall word next st, P st -> P (take_rule word next st)) ->
  (forall word next st, P st -> P (roll_rule word next st)) ->
  (forall word next st, P st -> P (camera_rule word next st)) ->
  (forall line st, upper line = line -> P st -> P (production_rule line st)) ->
  P st -> P (process_line raw_line st).
Proof.
  intros H1 H2 H3 H4 H5 Hst. rewrite process_line_passes. cbv zeta.
  apply H5; [apply upper_idem|].
  repeat (apply keyword_pass_invariant; [assumption|]).
  exact Hst.
Qed.

Lemma process_lines_invariant (P : SlateInfo -> Prop) lines :
  (forall raw_line st, P st -> P (process_line raw_line st)) ->
  forall st, P st -> P (process_lines lines st).
Proof.
  intros Hline. induction lines as [|l lines IH]; intros st Hst; [exact Hst|].
  change (P (process_lines lines (process_line l st))). auto.
Qed.

Lemma parse_checked_line raw_line st :
  parse_checked st -> parse_checked (process_line raw_line st).
Proof.
  apply process_line_invariant.
  - intros word next s (H1 & H2 & H3 & H4 & H5 & H6). unfold slate_scene_rule.
    destruct (String.eqb word "SLATE" || String.eqb word "SCENE"); [|repeat split; assumption].
    destruct (alnum_modulo_separators (strip_char ":" next)) eqn:Hv; [|repeat split; assumption].
    destruct (contains "SLATE" word); repeat split; cbn; auto using value_ok_Some.
  - intros word next s (H1 & H2 & H3 & H4 & H5 & H6). unfold take_rule.
    destruct (contains "TAKE" word); [|repeat split; assumption].
    destruct (isdigit (strip_char ":" next)) eqn:Hv; repeat split; cbn;
      auto using value_ok_Some.
  - intros word next s (H1 & H2 & H3 & H4 & H5 & H6). unfold roll_rule.
    destruct (contains "ROLL" word); [|repeat split; assumption].
    destruct (alnum_modulo_separators (strip_char ":" next)) eqn:Hv; repeat split; cbn;
      auto using value_ok_Some.
  - intros word next s (H1 & H2 & H3 & H4 & H5 & H6). unfold camera_rule.
    destruct (contains "CAMERA" word || contains "CAM" word); [|repeat split; assumption].
    destruct (alnum_modulo_separators (strip_char ":" next)) eqn:Hv; repeat split; cbn;
      auto using value_ok_Some.
  - intros line s Hup (H1 & H2 & H3 & H4 & H5 & H6). unfold production_rule.
    destruct (5 <? len line) eqn:Hlen; cbn [andb]; [|repeat split; assumption].
    destruct (negb (existsb (fun keyword => contains keyword line) production_keywords));
      [|repeat split; assumption].
    destruct (negb (truthy (production s))); cbn [andb]; [|repeat split; assumption].
    destruct (isalnum (remove_char " " line)) eqn:Hal; repeat split; cbn; auto.
    apply value_ok_Some. unfold production_check.
    rewrite Hlen, Hal, Hup, String.eqb_refl. reflexivity.
Qed.

Lemma parse_checked_default : parse_checked SlateInfo_default.
Proof. repeat split; apply value_ok_None. Qed.

Lemma isalnum_nonempty s : isalnum s = true -> nonempty s = true.
Proof. unfold isalnum. intros H. apply andb_prop in H. tauto. Qed.

Lemma remove_char_nonempty c s : nonempty (remove_char c s) = true -> nonempty s = true.
Proof. destruct s; [discriminate | reflexivity]. Qed.

Lemma checked_field_ok check o :
  (forall v, check v = true -> nonempty v = true) ->
  value_ok check o -> field_ok o.
Proof.
  intros Hne Hok Heq. specialize (Hok _ Heq). apply Hne in Hok. discriminate Hok.
Qed.

Lemma parse_checked_lines lines st :
  parse_checked st -> parse_checked (process_lines lines st).
Proof.
  apply process_lines_invariant. intros raw_line s. apply parse_checked_line.
Qed.

(** A checked value is not the empty text. *)
Lemma parse_checked_ok s : parse_checked s -> SlateInfo_ok s.
Proof.
  intros (H1 & H2 & H3 & H4 & H5 & H6).
  assert (Hsep : forall v, alnum_modulo_separators v = true -> nonempty v = true).
  { intros v Hv. unfold alnum_modulo_separators in Hv.
    apply isalnum_nonempty in Hv. now do 2 apply remove_char_nonempty in Hv. }
  assert (Hdig : forall v, isdigit v = true -> nonempty v = true).
  { intros v Hv. unfold isdigit in Hv. apply andb_prop in Hv. tauto. }
  assert (Hprod : forall v, production_check v = true -> nonempty v = true).
  { intros v Hv. unfold production_check in Hv.
    apply andb_prop in Hv. destruct Hv as [Hv _].
    apply andb_prop in Hv. destruct Hv as [_ Hv].
    apply isalnum_nonempty in Hv. now apply remove_char_nonempty in Hv. }
  repeat split; eauto using checked_field_ok.
Qed.

(** X1: every value the parser stores has passed the test of its rule, for
    every text: slate_number, scene, roll and camera are alphanumeric once
    their '/' and '-' are removed, take is made of digits, production is an
    upper-case line longer than 5 characters that is alphanumeric once its
    spaces are removed; so no field of a parse holds the empty text. *)
Theorem X1_parsed_values_are_checked :
  forall text : string,
    parse_checked (_parse_slate_text text) /\ SlateInfo_ok (_parse_slate_text text).
Proof.
  intros text.
  assert (H : parse_checked (_parse_slate_text text))
    by (unfold _parse_slate_text; apply parse_checked_lines, parse_checked_default).
  split; [exact H | apply parse_checked_ok, H].
Qed.

Lemma parse_untouched_line raw_line st :
  parse_untouched st -> parse_untouched (process_line raw_line st).
Proof.
  apply process_line_invariant.
  - intros word next s H. unfold slate_scene_rule.
    destruct (String.eqb word "SLATE" || String.eqb word "SCENE"); [|exact H].
    destruct (alnum_modulo_separators (strip_char ":" next)); [|exact H].
    destruct (contains "SLATE" word); exact H.
  - intros word next s H. unfold take_rule.
    destruct (contains "TAKE" word); [|exact H].
    destruct (isdigit (strip_char ":" next)); exact H.
  - intros word next s H. unfold roll_rule.
    destruct (contains "ROLL" word); [|exact H].
    destruct (alnum_modulo_separators (strip_char ":" next)); exact H.
  - intros word next s H. unfold camera_rule.
    destruct (contains "CAMERA" word || contains "CAM" word); [|exact H].
    destruct (alnum_modulo_separators (strip_char ":" next)); exact H.
  - intros line s _ H. unfold production_rule.
    destruct ((5 <? len line) &&
              negb (existsb (fun keyword => contains keyword line) production_keywords));
      [|exact H].
    destruct (negb (truthy (production s)) && isalnum (remove_char " " line)); exact H.
Qed.

Lemma parse_untouched_lines lines st :
  parse_untouched st -> parse_untouched (process_lines lines st).
Proof.
  apply process_lines_invariant. intros raw_line s. apply parse_untouched_line.
Qed.

(** X2: the parser writes six fields only: for every text the parse has no
    director and no date, the confidence 0.0 and the frame number 0. *)
Theorem X2_parser_leaves_other_fields :
  forall text : string, parse_untouched (_parse_slate_text text).
Proof.
  intros text. unfold _parse_slate_text.
  apply parse_untouched_lines. repeat split.
Qed.

(** ** Which lines touch which field *)

(** X3: a keyword field is written only by a line that contains its
    keyword: a line whose trimmed, upper-cased form contains neither SLATE
    nor SCENE leaves slate_number and scene as they were, one without TAKE
    leaves take, one without ROLL leaves roll, one without CAM leaves
    camera. *)
Theorem X3_field_needs_its_keyword :
  forall (k : keyword_field) (raw_line : string) (st : SlateInfo),
    guard_of k (upper (strip raw_line)) = false ->
    get k (process_line raw_line st) = get k st.
Proof.
  intros k raw_line st Hguard.
  rewrite process_line_passes. cbv zeta.
  rewrite production_rule_keeps.
  destruct k; cbn [guard_of] in Hguard;
    repeat (rewrite keyword_pass_skip;
            [| first [ left; exact Hguard
                     | right; intros;
                       first [ apply slate_scene_rule_keeps
                             | apply take_rule_keeps
                             | apply roll_rule_keeps
                             | apply camera_rule_keeps ]; discriminate ] ]);
    reflexivity.
Qed.

(** X3 at a TAKE line met with a scene already read. *)
Lemma X3_field_needs_its_keyword_witness :
  scene (process_line "take 7" (set_scene "5A" SlateInfo_default)) = Some "5A".
Proof.
  apply (X3_field_needs_its_keyword f_scene "take 7" (set_scene "5A" SlateInfo_default)).
  reflexivity.
Defined.

(** ** Letter case *)

Lemma len_upper s : len (upper s) = len s.
Proof. induction s as [|c r IH]; cbn; [reflexivity|]. now f_equal. Qed.

Lemma process_line_upper raw_line st :
  process_line (upper raw_line) st = process_line raw_line st.
Proof. rewrite !process_line_passes. cbv zeta. now rewrite strip_upper, upper_idem. Qed.

Lemma process_lines_upper lines st :
  process_lines (map upper lines) st = process_lines lines st.
Proof.
  revert st. induction lines as [|l lines IH]; intros st; [reflexivity|].
  change (process_lines (map upper lines) (process_line (upper l) st)
          = process_lines lines (process_line l st)).
  now rewrite process_line_upper, IH.
Qed.

(** X4: the analysis of an ASCII text does not depend on the case of its
    letters: a text of code points below 128 and its upper-cased form have
    the same parse and the same score. *)
Theorem X4_parse_ignores_case :
  forall text : string,
    ascii_text text = true ->
    _parse_slate_text (upper text) = _parse_slate_text text
    /\ forall slate_info,
         _calculate_confidence slate_info (upper text)
         = _calculate_confidence slate_info text.
Proof.
  intros text _. split.
  - unfold _parse_slate_text, text_lines.
    now rewrite strip_upper, split_lines_upper, process_lines_upper.
  - intros slate_info. unfold _calculate_confidence.
    now rewrite strip_upper, len_upper.
Qed.

(** X4 at a slate written in lower case. *)
Lemma X4_parse_ignores_case_witness :
  _parse_slate_text (upper (text_of_lines ["my film"; "scene 5a"; "take 3"]))
  = _parse_slate_text (text_of_lines ["my film"; "scene 5a"; "take 3"])
  /\ forall slate_info,
       _calculate_confidence slate_info
         (upper (text_of_lines ["my film"; "scene 5a"; "take 3"]))
       = _calculate_confidence slate_info (text_of_lines ["my film"; "scene 5a"; "take 3"]).
Proof.
  apply (X4_parse_ignores_case (text_of_lines ["my film"; "scene 5a"; "take 3"])).
  reflexivity.
Defined.

(** ** Empty texts and first production *)

(** X5: a text that is empty once trimmed parses to the default SlateInfo
    and scores 0.0. *)
Theorem X5_blank_text :
  forall text : string,
    strip text = EmptyString ->
    _parse_slate_text text = SlateInfo_default
    /\ _calculate_confidence (_parse_slate_text text) text = 0%float.
Proof.
  intros text Hblank.
  assert (Hparse : _parse_slate_text text = SlateInfo_default)
    by (unfold _parse_slate_text, text_lines; rewrite Hblank; reflexivity).
  split; [exact Hparse|].
  rewrite Hparse. unfold _calculate_confidence. rewrite Hblank. reflexivity.
Qed.

(** X5 at a text of spaces and line ends. *)
Lemma X5_blank_text_witness :
  _parse_slate_text (text_of_lines ["  "; " "; ""]) = SlateInfo_default
  /\ _calculate_confidence (_parse_slate_text (text_of_lines ["  "; " "; ""]))
                           (text_of_lines ["  "; " "; ""]) = 0%float.
Proof. apply (X5_blank_text (text_of_lines ["  "; " "; ""])). reflexivity. Defined.

(** X6: production keeps its first value: when a line of a text gives
    production a value, the lines before it having given none, the parse
    holds that value whatever the lines after it are. *)
Theorem X6_first_production_wins :
  forall (text : string) (before after : list string) (l v : string),
    text_lines text = before ++ l :: after ->
    production (process_lines before SlateInfo_default) = None ->
    production (process_line l (process_lines before SlateInfo_default)) = Some v ->
    production (_parse_slate_text text) = Some v.
Proof.
  intros text before after l v Hsplit Hnone Hset.
  unfold _parse_slate_text. rewrite Hsplit, process_lines_app.
  change (process_lines (l :: after) ?s) with (process_lines after (process_line l s)).
  rewrite process_lines_keep_production; [exact Hset|].
  rewrite Hset.
  assert (Hchk : parse_checked (process_line l (process_lines before SlateInfo_default)))
    by apply parse_checked_line, parse_checked_lines, parse_checked_default.
  destruct Hchk as (_ & _ & _ & _ & _ & Hprod).
  specialize (Hprod v Hset). unfold production_check in Hprod.
  apply andb_prop in Hprod. destruct Hprod as [Hprod _].
  apply andb_prop in Hprod. destruct Hprod as [Hlen _].
  apply Nat.ltb_lt in Hlen. cbn [truthy]. now apply len_nonempty.
Qed.

(** X6 at a slate with two title lines. *)
Lemma X6_first_production_wins_witness :
  production (_parse_slate_text
                (text_of_lines ["TAKE 3"; "My Film"; "Second Unit"; "ROLL 2"]))
  = Some "MY FILM".
Proof.
  apply (X6_first_production_wins
           (text_of_lines ["TAKE 3"; "My Film"; "Second Unit"; "ROLL 2"])
           ["TAKE 3"] ["Second Unit"; "ROLL 2"] "My Film" "MY FILM");
    reflexivity.
Defined.

(** ** The score and its thresholds *)

(** X7: the score never falls when more is detected: if every scoring field
    set in one SlateInfo is set in another, and the second text is long
    whenever the first is, the second score is at least the first, in the
    rounded arithmetic of the program. *)
Theorem X7_score_is_monotone :
  forall (s s' : SlateInfo) (text text' : string),
    detects_no_more s s' ->
    ((10 <? len (strip text)) = true -> (10 <? len (strip text')) = true) ->
    PrimFloat.leb (_calculate_confidence s text) (_calculate_confidence s' text') = true.
Proof.
  intros s s' text text' (H1 & H2 & H3 & H4 & H5 & H6) H0.
  unfold _calculate_confidence.
  destruct (10 <? len (strip text)), (10 <? len (strip text'));
    try (specialize (H0 eq_refl); discriminate H0); clear H0;
  destruct (truthy (slate_number s)), (truthy (slate_number s'));
    try (specialize (H1 eq_refl); discriminate H1); clear H1;
  destruct (truthy (scene s)), (truthy (scene s'));
    try (specialize (H2 eq_refl); discriminate H2); clear H2;
  destruct (truthy (take s)), (truthy (take s'));
    try (specialize (H3 eq_refl); discriminate H3); clear H3;
  destruct (truthy (roll s)), (truthy (roll s'));
    try (specialize (H4 eq_refl); discriminate H4); clear H4;
  destruct (truthy (camera s)), (truthy (camera s'));
    try (specialize (H5 eq_refl); discriminate H5); clear H5;
  destruct (truthy (production s)), (truthy (production s'));
    try (specialize (H6 eq_refl); discriminate H6); clear H6;
  vm_compute; reflexivity.
Qed.

(** X7 at a slate with a take against the same slate with a scene added. *)
Lemma X7_score_is_monotone_witness :
  PrimFloat.leb
    (_calculate_confidence (parsed None None None (Some "3") None None) "TAKE 3")
    (_calculate_confidence (parsed None None (Some "5A") (Some "3") None None)
                           "SCENE 5A TAKE 3") = true.
Proof.
  apply (X7_score_is_monotone
           (parsed None None None (Some "3") None None)
           (parsed None None (Some "5A") (Some "3") None None)
           "TAKE 3" "SCENE 5A TAKE 3").
  - repeat split; cbn; congruence.
  - intros H. reflexivity.
Defined.

(** X8: a score above the early-exit threshold 0.8 needs the slate number
    and one of scene and take: without the slate number the greatest sum is
    0.1 + 0.2 + 0.2 + 0.1 + 0.1 + 0.1, which is not above 0.8. *)
Theorem X8_exit_needs_slate_number :
  forall (s : SlateInfo) (text : string),
    PrimFloat.ltb 0.8%float (_calculate_confidence s text) = true ->
    truthy (slate_number s) = true
    /\ (truthy (scene s) = true \/ truthy (take s) = true).
Proof.
  intros s text. unfold _calculate_confidence.
  destruct (10 <? len (strip text)), (truthy (slate_number s)), (truthy (scene s)),
    (truthy (take s)), (truthy (roll s)), (truthy (camera s)), (truthy (production s));
    vm_compute; intros H; try discriminate H; auto.
Qed.

(** X8 at a slate with every field read. *)
Lemma X8_exit_needs_slate_number_witness :
  truthy (slate_number (_parse_slate_text full_slate)) = true
  /\ (truthy (scene (_parse_slate_text full_slate)) = true
      \/ truthy (take (_parse_slate_text full_slate)) = true).
Proof.
  apply (X8_exit_needs_slate_number (_parse_slate_text full_slate) full_slate).
  vm_compute. reflexivity.
Defined.

(** X9: a SlateInfo with the slate number, or with both scene and take, or
    with one of them and a long text, is not below the batch's threshold
    0.3. *)
Theorem X9_not_low_confidence :
  forall (s : SlateInfo) (text : string),
    truthy (slate_number s) = true
    \/ (truthy (scene s) = true /\ truthy (take s) = true)
    \/ ((10 <? len (strip text)) = true
        /\ (truthy (scene s) = true \/ truthy (take s) = true)) ->
    PrimFloat.ltb (_calculate_confidence s text) 0.3%float = false.
Proof.
  intros s text. unfold _calculate_confidence.
  destruct (10 <? len (strip text)), (truthy (slate_number s)), (truthy (scene s)),
    (truthy (take s)), (truthy (roll s)), (truthy (camera s)), (truthy (production s));
    vm_compute; intros H; try reflexivity;
    repeat match goal with
           | H : _ \/ _ |- _ => destruct H
           | H : _ /\ _ |- _ => destruct H
           end; discriminate.
Qed.

(** X9 at a slate with a slate number alone. *)
Lemma X9_not_low_confidence_witness :
  PrimFloat.ltb
    (_calculate_confidence (parsed None (Some "23") None None None None) "SLATE 23")
    0.3%float = false.
Proof.
  apply (X9_not_low_confidence (parsed None (Some "23") None None None None) "SLATE 23").
  left. reflexivity.
Defined.

(** ** What [analyze_frame] answers *)

Lemma values_in_unit_interval x :
  In x score_values ->
  PrimFloat.leb 0%float x = true /\ PrimFloat.leb x 1%float = true.
Proof.
  intros H. vm_compute in H.
  repeat (destruct H as [<- | H]; [split; vm_compute; reflexivity|]). destruct H.
Qed.

Lemma SlateInfo_ok_default : SlateInfo_ok SlateInfo_default.
Proof. repeat split; discriminate. Qed.

(** X10: whatever the frame and the environment, the SlateInfo
    [analyze_frame] answers has a confidence between 0.0 and 1.0, no field
    holding the empty text, no director, no date and the frame number 0; and
    it is the default SlateInfo when a dependency is missing or the OCR call
    raises. *)
Theorem X10_analyze_frame_answer :
  forall (env : Env) (frame : Frame),
    PrimFloat.leb 0%float (confidence (analyze_frame env frame)) = true
    /\ PrimFloat.leb (confidence (analyze_frame env frame)) 1%float = true
    /\ SlateInfo_ok (analyze_frame env frame)
    /\ director (analyze_frame env frame) = None
    /\ date (analyze_frame env frame) = None
    /\ frame_number (analyze_frame env frame) = 0
    /\ (HAS_TESSERACT env = false \/ HAS_OPENCV env = false
        \/ (exists e, image_to_string frame = Raise e) ->
        analyze_frame env frame = SlateInfo_default).
Proof.
  intros env frame.
  destruct (values_in_unit_interval _ (analyze_frame_in_values env frame)) as [Hlo Hhi].
  split; [exact Hlo|]. split; [exact Hhi|].
  unfold analyze_frame.
  destruct (HAS_TESSERACT env), (HAS_OPENCV env); cbn [negb orb];
    try (repeat split; try discriminate; reflexivity).
  destruct (image_to_string frame) as [e|text].
  - repeat split; try discriminate; reflexivity.
  - assert (Hok : SlateInfo_ok (_parse_slate_text text))
      by (apply parse_checked_ok, parse_checked_lines, parse_checked_default).
    destruct (parse_untouched_lines (text_lines text) SlateInfo_default)
      as (Hd & Hdate & _ & Hfn); [repeat split|].
    repeat split; try apply Hok; auto.
    intros [H | [H | [e H]]]; discriminate H.
Qed.

Lemma analyze_frame_ok env frame : SlateInfo_ok (analyze_frame env frame).
Proof.
  unfold analyze_frame.
  destruct (negb (HAS_TESSERACT env) || negb (HAS_OPENCV env));
    [apply SlateInfo_ok_default|].
  destruct (image_to_string frame) as [e|text]; [apply SlateInfo_ok_default|].
  apply (parse_checked_ok (_parse_slate_text text)).
  apply parse_checked_lines, parse_checked_default.
Qed.

(** ** What the selector returns, raises and reads *)

(** X11: the SlateInfo returned for a clip is the default one, or the
    analysis of the frame read at the count it carries as frame number; that
    count is a multiple of 5 below the cap, and its confidence is above 0.
    In both cases the confidence lies between 0.0 and 1.0 and no field holds
    the empty text. *)
Theorem X11_returned_candidate :
  forall (env : Env) (video_path : string) (max_frames : Z) (best : SlateInfo),
    analyze_video_for_slate env video_path max_frames = Ok best ->
    (best = SlateInfo_default
     \/ exists frame,
         nth_error (VideoCapture env video_path) (frame_number best) = Some (Got frame)
         /\ best = set_frame_number (frame_number best) (analyze_frame env frame)
         /\ frame_number best mod 5 = 0
         /\ (Z.of_nat (frame_number best) < max_frames)%Z
         /\ PrimFloat.ltb 0%float (confidence best) = true)
    /\ PrimFloat.leb 0%float (confidence best) = true
    /\ PrimFloat.leb (confidence best) 1%float = true
    /\ SlateInfo_ok best.
Proof.
  intros env video_path max_frames best Hret.
  apply analyze_video_for_slate_Ok in Hret. unfold analyze_video_sampling in Hret.
  destruct (sampling_loop_selects env max_frames _ 0 SlateInfo_default best
              zero_in_values Hret) as (Hbest & _ & Hcases).
  destruct (values_in_unit_interval _ Hbest) as [Hlo Hhi].
  assert (Hshape :
    best = SlateInfo_default
    \/ exists frame,
        nth_error (VideoCapture env video_path) (frame_number best) = Some (Got frame)
        /\ best = set_frame_number (frame_number best) (analyze_frame env frame)
        /\ frame_number best mod 5 = 0
        /\ (Z.of_nat (frame_number best) < max_frames)%Z
        /\ PrimFloat.ltb 0%float (confidence best) = true).
  { destruct Hcases as [[-> _] | (earlier & later & HL & _ & Hpos & _)]; [now left|].
    right.
    destruct (analysed_are_sampled_frames env max_frames (VideoCapture env video_path)
                0 SlateInfo_default best)
      as (_ & Hmax & Hmod & frame & Hnth & Hc).
    { rewrite HL. apply in_or_app. right. now left. }
    rewrite Nat.sub_0_r in Hnth. exists frame. auto. }
  repeat split; try assumption.
  all: destruct Hshape as [-> | (frame & _ & -> & _)];
    try discriminate; apply (analyze_frame_ok env frame).
Qed.

(** X11 at the clip with a full slate at frame 5. *)
Lemma X11_returned_candidate_witness :
  let best := set_frame_number 5 (analyze_frame sample_env (frame_of_text full_slate)) in
  (best = SlateInfo_default
   \/ exists frame,
       nth_error (VideoCapture sample_env "/media/slate.mov") (frame_number best)
       = Some (Got frame)
       /\ best = set_frame_number (frame_number best) (analyze_frame sample_env frame)
       /\ frame_number best mod 5 = 0
       /\ (Z.of_nat (frame_number best) < 30)%Z
       /\ PrimFloat.ltb 0%float (confidence best) = true)
  /\ PrimFloat.leb 0%float (confidence best) = true
  /\ PrimFloat.leb (confidence best) 1%float = true
  /\ SlateInfo_ok best.
Proof.
  apply (X11_returned_candidate sample_env "/media/slate.mov" 30
           (set_frame_number 5 (analyze_frame sample_env (frame_of_text full_slate)))).
  vm_compute. reflexivity.
Defined.

Lemma sampling_loop_raises env max_frames cap :
  forall n b e,
    outcome (sampling_loop env max_frames cap n b) = Raise e ->
    exists i,
      nth_error cap i = Some (ReadFails e)
      /\ (Z.of_nat (n + i) < max_frames)%Z
      /\ forall j, j < i -> exists frame, nth_error cap j = Some (Got frame).
Proof.
  induction cap as [|ev cap IH]; intros n b e Hout.
  - rewrite sampling_loop_nil in Hout. discriminate Hout.
  - rewrite sampling_loop_cons in Hout.
    destruct (Z.of_nat n <? max_frames)%Z eqn:Hcap; [|discriminate Hout].
    apply Z.ltb_lt in Hcap.
    destruct ev as [frame|e0].
    + assert (Hlater :
        forall b', outcome (sampling_loop env max_frames cap (S n) b') = Raise e ->
          exists i,
            nth_error (Got frame :: cap) i = Some (ReadFails e)
            /\ (Z.of_nat (n + i) < max_frames)%Z
            /\ forall j, j < i -> exists frame0,
                 nth_error (Got frame :: cap) j = Some (Got frame0)).
      { intros b' Hb'. destruct (IH _ _ _ Hb') as (i & Hnth & Hlt & Hbefore).
        exists (S i). repeat split; [exact Hnth | lia |].
        intros [|j] Hj; [now exists frame|]. apply Hbefore. lia. }
      destruct (n mod 5 =? 0); [|now apply (Hlater b)].
      cbv zeta in Hout.
      destruct (PrimFloat.ltb 0.8%float
                  (confidence (set_frame_number n (analyze_frame env frame))));
        rewrite outcome_logged in Hout; [discriminate Hout|].
      eapply Hlater, Hout.
    + cbn [outcome] in Hout. injection Hout as ->.
      exists 0. repeat split; [lia|]. intros j Hj. lia.
Qed.

(** X12: the selector raises in three cases only: OpenCV is missing
    (ImportError), the path does not exist (FileNotFoundError), or a read of
    the capture raises while the count is below the cap, every read before it
    having answered a frame; the exception of that read is what is raised. *)
Theorem X12_selector_errors :
  forall (env : Env) (video_path : string) (max_frames : Z) (e : exn),
    analyze_video_for_slate env video_path max_frames = Raise e ->
    (HAS_OPENCV env = false /\ e = ImportError "OpenCV is required for video analysis")
    \/ (HAS_OPENCV env = true /\ path_exists env video_path = false
        /\ e = FileNotFoundError ("Video file not found: " ++ video_path)%string)
    \/ (HAS_OPENCV env = true /\ path_exists env video_path = true
        /\ exists i,
             nth_error (VideoCapture env video_path) i = Some (ReadFails e)
             /\ (Z.of_nat i < max_frames)%Z
             /\ forall j, j < i ->
                  exists frame, nth_error (VideoCapture env video_path) j = Some (Got frame)).
Proof.
  intros env video_path max_frames e. unfold analyze_video_for_slate.
  destruct (HAS_OPENCV env); cbn [negb].
  - destruct (path_exists env video_path); cbn [negb].
    + intros Hout. right. right. repeat split.
      apply sampling_loop_raises in Hout. exact Hout.
    + intros [= <-]. right. left. auto.
  - intros [= <-]. left. auto.
Qed.

(** X12 at the clip whose first read fails. *)
Lemma X12_selector_errors_witness :
  (HAS_OPENCV sample_env = false
   /\ Exception "decode error" = ImportError "OpenCV is required for video analysis")
  \/ (HAS_OPENCV sample_env = true /\ path_exists sample_env "/media/broken.mov" = false
      /\ Exception "decode error"
         = FileNotFoundError ("Video file not found: " ++ "/media/broken.mov")%string)
  \/ (HAS_OPENCV sample_env = true /\ path_exists sample_env "/media/broken.mov" = true
      /\ exists i,
           nth_error (VideoCapture sample_env "/media/broken.mov") i
           = Some (ReadFails (Exception "decode error"))
           /\ (Z.of_nat i < 30)%Z
           /\ forall j, j < i ->
                exists frame,
                  nth_error (VideoCapture sample_env "/media/broken.mov") j
                  = Some (Got frame)).
Proof.
  apply (X12_selector_errors sample_env "/media/broken.mov" 30 (Exception "decode error")).
  reflexivity.
Defined.

Lemma unread_logged s L : unread (logged s L) = unread L.
Proof. reflexivity. Qed.

Lemma sampling_loop_bounds env max_frames cap :
  forall n b,
    exists consumed,
      cap = consumed ++ unread (sampling_loop env max_frames cap n b)
      /\ (Z.of_nat (length consumed) <= Z.max 0 (max_frames - Z.of_nat n))%Z
      /\ length (analysed (sampling_loop env max_frames cap n b)) + (n + 4) / 5
         <= (n + length consumed + 4) / 5.
Proof.
  induction cap as [|ev cap IH]; intros n b.
  - rewrite sampling_loop_nil. exists []. cbn [unread analysed length app].
    repeat split; [lia|]. rewrite Nat.add_0_r. lia.
  - rewrite sampling_loop_cons.
    destruct (Z.of_nat n <? max_frames)%Z eqn:Hcap.
    2:{ exists []. cbn [unread analysed length app].
        repeat split; [lia|]. rewrite Nat.add_0_r. lia. }
    apply Z.ltb_lt in Hcap.
    assert (Hdiv : (n + 4) / 5 <= (n + 1 + 4) / 5)
      by (apply Nat.Div0.div_le_mono; lia).
    assert (Hlater :
      forall b' extra,
        extra + (n + 4) / 5 <= (S n + 4) / 5 ->
        exists consumed,
          ev :: cap = consumed ++ unread (sampling_loop env max_frames cap (S n) b')
          /\ (Z.of_nat (length consumed) <= Z.max 0 (max_frames - Z.of_nat n))%Z
          /\ extra + length (analysed (sampling_loop env max_frames cap (S n) b'))
             + (n + 4) / 5 <= (n + length consumed + 4) / 5).
    { intros b' extra Hextra.
      destruct (IH (S n) b') as (consumed & Hcap' & Hlen & Hcount).
      exists (ev :: consumed). cbn [app length]. rewrite <- Hcap'.
      repeat split; [lia|].
      replace (n + S (length consumed) + 4) with (S n + length consumed + 4) by lia.
      lia. }
    destruct ev as [frame|e].
    + destruct (n mod 5 =? 0) eqn:Hmod.
      * apply Nat.eqb_eq in Hmod.
        assert (Hstep : 1 + (n + 4) / 5 <= (S n + 4) / 5).
        { assert (Hn : n = 5 * (n / 5)) by (pose proof (Nat.div_mod_eq n 5); lia).
          rewrite Hn at 1.
          replace (5 * (n / 5) + 4) with (4 + (n / 5) * 5) by lia.
          rewrite Nat.div_add by lia.
          replace (S n + 4) with (0 + (n / 5 + 1) * 5) by lia.
          rewrite Nat.div_add by lia. cbn. lia. }
        cbv zeta.
        destruct (PrimFloat.ltb 0.8%float
                    (confidence (set_frame_number n (analyze_frame env frame)))).
        -- exists [Got frame]. cbn [unread analysed logged length app].
           repeat split; [lia|].
           replace (n + 1 + 4) with (S n + 4) by lia. lia.
        -- rewrite unread_logged, analysed_logged. cbn [length].
           destruct (Hlater
                       (if PrimFloat.ltb (confidence b)
                             (confidence (set_frame_number n (analyze_frame env frame)))
                        then set_frame_number n (analyze_frame env frame) else b)
                       1 Hstep) as (consumed & H1 & H2 & H3).
           exists consumed. repeat split; [exact H1 | exact H2 | lia].
      * destruct (Hlater b 0) as (consumed & H1 & H2 & H3).
        { replace (S n + 4) with (n + 1 + 4) by lia. lia. }
        exists consumed. repeat split; [exact H1 | exact H2 | lia].
    + exists [ReadFails e]. cbn [unread analysed length app].
      repeat split; [lia|]. replace (n + 1 + 4) with (n + 1 + 4) by lia. lia.
Qed.

(** X13: the selector reads the capture from its start and stops within the
    cap: the reads it made are a prefix of the capture no longer than
    max_frames (none when max_frames is not positive), and it analysed at
    most one frame in five of them, rounded up. *)
Theorem X13_reads_within_cap :
  forall (env : Env) (video_path : string) (max_frames : Z),
    let run := analyze_video_sampling env video_path max_frames in
    exists consumed,
      VideoCapture env video_path = consumed ++ unread run
      /\ (Z.of_nat (length consumed) <= Z.max 0 max_frames)%Z
      /\ 5 * length (analysed run) <= length consumed + 4.
Proof.
  intros env video_path max_frames run. unfold run, analyze_video_sampling.
  destruct (sampling_loop_bounds env max_frames (VideoCapture env video_path)
              0 SlateInfo_default) as (consumed & Hcap & Hlen & Hcount).
  exists consumed. repeat split; [exact Hcap | lia |].
  cbn [Nat.add] in Hcount.
  change (4 / 5) with 0 in Hcount. rewrite Nat.add_0_r in Hcount.
  pose proof (Nat.Div0.mul_div_le (length consumed + 4) 5). lia.
Qed.

(** ** The extension of a generated name *)

Lemma has_dot_cons c r : has_dot (String c r) = Ascii.eqb "." c || has_dot r.
Proof. unfold has_dot. cbn [contains startswith]. now rewrite andb_true_r. Qed.

Lemma split_on_nonempty sep s : split_on sep s <> [].
Proof.
  destruct s as [|c r]; cbn; [discriminate|].
  destruct (Ascii.eqb sep c); [discriminate|].
  destruct (split_on sep r); discriminate.
Qed.

Lemma split_without_dot s : has_dot s = false -> split_on "." s = [s].
Proof.
  induction s as [|c r IH]; [reflexivity|].
  rewrite has_dot_cons. intros H. apply orb_false_elim in H. destruct H as [Hc Hr].
  cbn [split_on]. rewrite Hc, (IH Hr). reflexivity.
Qed.

Lemma split_with_dot s :
  has_dot s = true -> exists w w' ws, split_on "." s = w :: w' :: ws.
Proof.
  induction s as [|c r IH]; [discriminate|].
  rewrite has_dot_cons. cbn [split_on].
  destruct (Ascii.eqb "." c); cbn [orb].
  - intros _. destruct (split_on "." r) as [|w ws] eqn:Hr;
      [now apply split_on_nonempty in Hr|]. now exists EmptyString, w, ws.
  - intros H. destruct (IH H) as (w & w' & ws & ->). now exists (String c w), w', ws.
Qed.

Lemma extension_of_cons c r :
  has_dot r = true -> extension_of (String c r) = extension_of r.
Proof.
  intros H. destruct (split_with_dot r H) as (w & w' & ws & Hr).
  unfold extension_of, last_of. cbn [split_on]. rewrite Hr.
  destruct (Ascii.eqb "." c); reflexivity.
Qed.

Lemma extension_of_dot r : extension_of (String "." r) = extension_of r.
Proof.
  unfold extension_of, last_of.
  change (split_on "." (String "." r)) with (EmptyString :: split_on "." r).
  destruct (split_on "." r) eqn:Hr; [now apply split_on_nonempty in Hr | reflexivity].
Qed.

Lemma extension_without_dot s : has_dot s = false -> extension_of s = s.
Proof. intros H. unfold extension_of. now rewrite (split_without_dot s H). Qed.

(** A name with a dot ends with the dot and its extension. *)
Lemma ends_with_own_extension s :
  has_dot s = true -> endswith ("." ++ extension_of s) s = true.
Proof.
  induction s as [|c r IH]; [discriminate|].
  rewrite has_dot_cons. intros H.
  destruct (has_dot r) eqn:Hr.
  - rewrite extension_of_cons by exact Hr.
    cbn [endswith]. rewrite (IH eq_refl). apply orb_true_r.
  - rewrite orb_false_r in H. apply Ascii.eqb_eq in H. subst c.
    rewrite extension_of_dot, (extension_without_dot r Hr).
    change ("." ++ r)%string with (String "." r).
    cbn [endswith]. now rewrite String.eqb_refl.
Qed.

Lemma extension_has_no_dot s : has_dot (extension_of s) = false.
Proof.
  induction s as [|c r IH]; [reflexivity|].
  destruct (has_dot r) eqn:Hr.
  - now rewrite extension_of_cons.
  - destruct (Ascii.eqb "." c) eqn:Hc.
    + apply Ascii.eqb_eq in Hc. subst c.
      now rewrite extension_of_dot, extension_without_dot.
    + rewrite extension_without_dot; rewrite has_dot_cons, Hc, Hr; reflexivity.
Qed.

Lemma has_dot_app j e : has_dot (j ++ "." ++ e) = true.
Proof.
  induction j as [|c r IH]; [reflexivity|].
  change (has_dot (String c (r ++ "." ++ e)) = true).
  rewrite has_dot_cons, IH. apply orb_true_r.
Qed.

Lemma extension_of_app j e :
  has_dot e = false -> extension_of (j ++ "." ++ e) = e.
Proof.
  intros He. induction j as [|c r IH].
  - change (extension_of (String "." e) = e).
    now rewrite extension_of_dot, extension_without_dot.
  - change (extension_of (String c (r ++ "." ++ e)) = e).
    rewrite extension_of_cons; [exact IH | apply has_dot_app].
Qed.

Lemma endswith_app suffix s : endswith suffix (s ++ suffix) = true.
Proof.
  induction s as [|c r IH].
  - change (endswith suffix suffix = true).
    destruct suffix; cbn [endswith]; now rewrite String.eqb_refl.
  - change (endswith suffix (String c (r ++ suffix)) = true).
    cbn [endswith]. rewrite IH. apply orb_true_r.
Qed.

Lemma endswith_dot_has_dot e s : endswith ("." ++ e) s = true -> has_dot s = true.
Proof.
  induction s as [|c r IH]; cbn [endswith].
  - rewrite orb_false_r. intros H. apply String.eqb_eq in H. discriminate H.
  - intros H. apply orb_prop in H. destruct H as [H | H].
    + apply String.eqb_eq in H. change ("." ++ e)%string with (String "." e) in H.
      injection H as <- _. reflexivity.
    + rewrite has_dot_cons, (IH H). apply orb_true_r.
Qed.

Lemma generate_clip_name_parts slate_info original_name :
  ClipRenamer.generate_clip_name slate_info original_name =
  match name_parts_of slate_info with
  | [] => original_name
  | _ :: _ => with_extension (join "_" (name_parts_of slate_info)) original_name
  end.
Proof.
  unfold ClipRenamer.generate_clip_name, name_parts_of.
  destruct (truthy (production slate_info)), (truthy (scene slate_info)),
    (truthy (slate_number slate_info)), (truthy (take slate_info)),
    (truthy (camera slate_info)); reflexivity.
Qed.

Lemma names_something_parts slate_info :
  names_something slate_info = true -> name_parts_of slate_info <> [].
Proof.
  unfold names_something, name_parts_of.
  destruct (truthy (production slate_info)), (truthy (scene slate_info)),
    (truthy (slate_number slate_info)), (truthy (take slate_info)),
    (truthy (camera slate_info)); cbn; intros H; discriminate.
Qed.

Lemma with_extension_idem new_name original_name :
  with_extension new_name (with_extension new_name original_name)
  = with_extension new_name original_name.
Proof.
  unfold with_extension at 2 3.
  destruct (has_dot original_name) eqn:Hdot.
  - destruct (endswith ("." ++ extension_of original_name) new_name) eqn:Hends;
      cbn [negb].
    + (* the name already ends with the extension *)
      unfold with_extension.
      rewrite (endswith_dot_has_dot _ _ Hends).
      rewrite ends_with_own_extension by apply (endswith_dot_has_dot _ _ Hends).
      reflexivity.
    + unfold with_extension.
      rewrite has_dot_app, extension_of_app by apply extension_has_no_dot.
      rewrite Hends. reflexivity.
  - unfold with_extension.
    destruct (has_dot new_name) eqn:Hnew; [|reflexivity].
    now rewrite ends_with_own_extension.
Qed.

(** X14: generating a name is idempotent: for every SlateInfo and every
    original name, generating again from the generated name gives the
    generated name. *)
Theorem X14_generate_clip_name_idempotent :
  forall (slate_info : SlateInfo) (original_name : string),
    ClipRenamer.generate_clip_name slate_info
      (ClipRenamer.generate_clip_name slate_info original_name)
    = ClipRenamer.generate_clip_name slate_info original_name.
Proof.
  intros slate_info original_name.
  rewrite !generate_clip_name_parts.
  destruct (name_parts_of slate_info) as [|part parts]; [reflexivity|].
  apply with_extension_idem.
Qed.

(** X15: the extension is kept: when the SlateInfo names something and the
    original name has a dot, the generated name ends with the dot and the
    text after the last dot of the original name. *)
Theorem X15_extension_is_kept :
  forall (slate_info : SlateInfo) (original_name : string),
    names_something slate_info = true ->
    has_dot original_name = true ->
    endswith ("." ++ extension_of original_name)
             (ClipRenamer.generate_clip_name slate_info original_name) = true.
Proof.
  intros slate_info original_name Hnames Hdot.
  rewrite generate_clip_name_parts.
  pose proof (names_something_parts slate_info Hnames) as Hparts.
  destruct (name_parts_of slate_info) as [|part parts]; [now destruct Hparts|].
  unfold with_extension. rewrite Hdot.
  destruct (endswith ("." ++ extension_of original_name) (join "_" (part :: parts)))
    eqn:Hends; cbn [negb]; [exact Hends|].
  apply endswith_app.
Qed.

(** X15 at a scene and the name foo_bar.mov. *)
Lemma X15_extension_is_kept_witness :
  endswith ("." ++ extension_of "foo_bar.mov")
           (ClipRenamer.generate_clip_name
              (parsed None None (Some "5") None None None) "foo_bar.mov") = true.
Proof.
  apply (X15_extension_is_kept (parsed None None (Some "5") None None None) "foo_bar.mov");
    reflexivity.
Defined.

(** ** Dry runs *)

Lemma process_clip_dry env c c' r :
  same_lookups c c' -> process_clip env true c r = process_clip env true c' r.
Proof.
  intros [Hname Hpath]. unfold process_clip. rewrite Hname, Hpath. reflexivity.
Qed.

Lemma process_clips_dry env clips :
  forall clips' r,
    Forall2 same_lookups clips clips' ->
    process_clips env true clips r = process_clips env true clips' r.
Proof.
  induction clips as [|c rest IH]; intros clips' r Hsame; inversion Hsame; subst.
  - reflexivity.
  - cbn [process_clips]. rewrite (process_clip_dry env c y r) by assumption.
    destruct (process_clip env true y r) as [e|r1]; cbn [bind]; [reflexivity|].
    now apply IH.
Qed.

(** X16: a dry run never consults the rename call: two listings whose clips
    answer the same names and the same file paths give the same outcome under
    dry_run, whatever their rename calls would answer or raise. *)
Theorem X16_dry_run_ignores_rename :
  forall (env : Env) (clips clips' : list Clip),
    Forall2 same_lookups clips clips' ->
    analyze_clips_and_rename env (Ok clips) true
    = analyze_clips_and_rename env (Ok clips') true.
Proof.
  intros env clips clips' Hsame. unfold analyze_clips_and_rename.
  destruct (negb (HAS_OPENCV env) || negb (HAS_TESSERACT env)); [reflexivity|].
  cbn [bind].
  pose proof (process_clips_dry env clips clips' results_init Hsame) as Hrun.
  inversion Hsame; subst; [reflexivity|].
  now rewrite Hrun.
Qed.

(** X16 at a clip and the same clip with a rename call that raises. *)
Lemma X16_dry_run_ignores_rename_witness :
  analyze_clips_and_rename sample_env (Ok [clip_slate; clip_blank]) true
  = analyze_clips_and_rename sample_env (Ok [clip_slate_refused; clip_blank]) true.
Proof.
  apply (X16_dry_run_ignores_rename sample_env
           [clip_slate; clip_blank] [clip_slate_refused; clip_blank]).
  repeat constructor.
Defined.

Lemma accepted_rename clip name : accepts_renames clip -> rename_clip clip name = true.
Proof. intros H. unfold rename_clip. now rewrite H. Qed.

Lemma process_clip_accepted env clip r :
  accepts_renames clip ->
  process_clip env false clip r = process_clip env true clip r.
Proof.
  intros Hacc. unfold process_clip.
  destruct (GetName clip) as [e|clip_name]; [reflexivity|].
  destruct (GetFilePath clip) as [e|clip_path]; [reflexivity|].
  cbn [bind negb].
  destruct (negb (truthy clip_path) ||
            negb (path_exists env (ClipRenamer.value clip_path))); [reflexivity|].
  destruct (analyze_video_for_slate env (ClipRenamer.value clip_path) default_max_frames)
    as [e|slate_info]; [reflexivity|].
  destruct (PrimFloat.ltb (confidence slate_info) 0.3%float); [reflexivity|].
  destruct (String.eqb (ClipRenamer.generate_clip_name slate_info clip_name) clip_name);
    [reflexivity|].
  now rewrite accepted_rename.
Qed.

(** X17: a dry run predicts the real run: when the application accepts
    every rename of every listed clip, the run with dry_run off returns what
    the dry run returns, entry for entry and counter for counter. *)
Theorem X17_dry_run_predicts_real_run :
  forall (env : Env) (clips : list Clip),
    Forall accepts_renames clips ->
    analyze_clips_and_rename env (Ok clips) false
    = analyze_clips_and_rename env (Ok clips) true.
Proof.
  intros env clips Hacc. unfold analyze_clips_and_rename.
  destruct (negb (HAS_OPENCV env) || negb (HAS_TESSERACT env)); [reflexivity|].
  cbn [bind].
  assert (Hrun : forall r, process_clips env false clips r = process_clips env true clips r).
  { induction Hacc as [|c rest Hc Hrest IH]; intros r; [reflexivity|].
    cbn [process_clips]. rewrite (process_clip_accepted env c r Hc).
    destruct (process_clip env true c r) as [e|r1]; cbn [bind]; [reflexivity|apply IH]. }
  destruct clips; [reflexivity|]. now rewrite Hrun.
Qed.

(** X17 at four sample clips whose renames are accepted. *)
Lemma X17_dry_run_predicts_real_run_witness :
  analyze_clips_and_rename sample_env
    (Ok [clip_slate; clip_gone; clip_blank; clip_broken]) false
  = analyze_clips_and_rename sample_env
      (Ok [clip_slate; clip_gone; clip_blank; clip_broken]) true.
Proof.
  apply (X17_dry_run_predicts_real_run sample_env
           [clip_slate; clip_gone; clip_blank; clip_broken]).
  repeat constructor.
Defined.

(** ** When a batch reports and when it aborts *)

Lemma process_clip_Ok_lookups env dry_run clip r r' :
  process_clip env dry_run clip r = Ok r' -> lookups_answer clip.
Proof.
  unfold process_clip, lookups_answer.
  destruct (GetName clip) as [e|name]; [discriminate|].
  destruct (GetFilePath clip) as [e|path]; [discriminate|].
  intros _. split; eexists; reflexivity.
Qed.

Lemma process_clip_Raise env dry_run clip r e :
  process_clip env dry_run clip r = Raise e -> lookup_raises clip e.
Proof.
  intros H.
  destruct (GetName clip) as [e0|name] eqn:Hname.
  - unfold process_clip in H. rewrite Hname in H. injection H as ->. now left.
  - destruct (GetFilePath clip) as [e0|path] eqn:Hpath.
    + unfold process_clip in H. rewrite Hname, Hpath in H. injection H as ->.
      right. split; [now exists name | exact Hpath].
    + destruct (process_clip_answers env dry_run clip r) as (r' & Hr').
      { split; eexists; eassumption. }
      rewrite Hr' in H. discriminate H.
Qed.

Lemma process_clips_Ok env dry_run clips :
  forall r r',
    process_clips env dry_run clips r = Ok r' ->
    Forall lookups_answer clips
    /\ exists entries,
         clip_results r' = clip_results r ++ entries
         /\ analyzed_clips r' = analyzed_clips r + length clips
         /\ Forall2 (recorded env dry_run) clips entries.
Proof.
  induction clips as [|clip rest IH]; intros r r' Hrun.
  - injection Hrun as <-. split; [constructor|].
    exists []. rewrite app_nil_r, Nat.add_0_r. repeat split. constructor.
  - cbn [process_clips] in Hrun.
    destruct (process_clip env dry_run clip r) as [e|r1] eqn:Hstep; [discriminate|].
    cbn [bind] in Hrun.
    pose proof (process_clip_Ok_lookups _ _ _ _ _ Hstep) as Hlook.
    destruct (process_clip_Ok _ _ _ _ _ Hstep) as (c & -> & Hc).
    destruct (IH _ _ Hrun) as (Hall & entries & Hres & Hcount & Hrec).
    split; [now constructor|].
    exists (c :: entries). rewrite Hres, Hcount.
    cbn [clip_results analyzed_clips step_results length].
    rewrite <- app_assoc. repeat split; [lia | now constructor].
Qed.

Lemma process_clips_Raise env dry_run clips :
  forall r e,
    process_clips env dry_run clips r = Raise e ->
    exists before clip after,
      clips = before ++ clip :: after
      /\ Forall lookups_answer before
      /\ lookup_raises clip e.
Proof.
  induction clips as [|clip rest IH]; intros r e Hrun; [discriminate|].
  cbn [process_clips] in Hrun.
  destruct (process_clip env dry_run clip r) as [e0|r1] eqn:Hstep; cbn [bind] in Hrun.
  - injection Hrun as ->. exists [], clip, rest.
    repeat split; [constructor | now apply process_clip_Raise in Hstep].
  - destruct (IH _ _ Hrun) as (before & c & after & -> & Hall & Hraise).
    exists (clip :: before), c, after.
    repeat split; [constructor; [|exact Hall] | exact Hraise].
    now apply process_clip_Ok_lookups in Hstep.
Qed.

(** X18: a report is returned only for a batch that ran to its end: both
    dependencies are available, the listing answered at least one clip, every
    lookup of a name and a file path answered; the report then counts every
    listed clip and holds one entry per clip, in the order of the clips, each
    accounting for its clip. *)
Theorem X18_report_means_complete_run :
  forall (env : Env) (folder : Folder) (dry_run : bool) (r : Results),
    analyze_clips_and_rename env folder dry_run = BatchResult r ->
    HAS_OPENCV env = true /\ HAS_TESSERACT env = true
    /\ exists clips,
         folder = Ok clips
         /\ clips <> []
         /\ Forall lookups_answer clips
         /\ analyzed_clips r = length clips
         /\ Forall2 (recorded env dry_run) clips (clip_results r).
Proof.
  intros env folder dry_run r. unfold analyze_clips_and_rename.
  destruct (HAS_OPENCV env), (HAS_TESSERACT env); cbn [negb orb]; try discriminate.
  destruct folder as [e|clips]; cbn [bind]; [discriminate|].
  destruct clips as [|clip rest]; [discriminate|].
  destruct (process_clips env dry_run (clip :: rest) results_init) as [e|r0] eqn:Hrun;
    cbn [bind]; [discriminate|].
  intros [= <-].
  destruct (process_clips_Ok _ _ _ _ _ Hrun) as (Hall & entries & Hres & Hcount & Hrec).
  repeat split. exists (clip :: rest).
  repeat split; [discriminate | exact Hall | exact Hcount | now rewrite Hres].
Qed.

(** X18 at the report of the five sample clips. *)
Lemma X18_report_means_complete_run_witness :
  HAS_OPENCV sample_env = true /\ HAS_TESSERACT sample_env = true
  /\ exists clips,
       Ok sample_clips = Ok clips
       /\ clips <> []
       /\ Forall lookups_answer clips
       /\ analyzed_clips
            (match analyze_clips_and_rename sample_env (Ok sample_clips) false with
             | BatchResult r => r
             | BatchError _ => results_init
             end) = length clips
       /\ Forall2 (recorded sample_env false) clips
            (clip_results
               (match analyze_clips_and_rename sample_env (Ok sample_clips) false with
                | BatchResult r => r
                | BatchError _ => results_init
                end)).
Proof.
  apply (X18_report_means_complete_run sample_env (Ok sample_clips) false).
  vm_compute. reflexivity.
Defined.

(** X19: the single top-level error has three causes only, each with its
    message: a dependency is missing; the listing answered no clip; or, with
    the message "Failed to analyze clips: " and the text of the exception,
    the listing raised, or the lookup of a clip's name or file path raised,
    every clip before it having answered both. *)
Theorem X19_abort_causes :
  forall (env : Env) (folder : Folder) (dry_run : bool) (msg : string),
    analyze_clips_and_rename env folder dry_run = BatchError msg ->
    ((HAS_OPENCV env = false \/ HAS_TESSERACT env = false)
     /\ msg = "Required dependencies not available. Install opencv-python and pytesseract.")
    \/ (HAS_OPENCV env = true /\ HAS_TESSERACT env = true
        /\ ((folder = Ok [] /\ msg = "No clips found in the specified folder.")
            \/ exists e,
                 msg = ("Failed to analyze clips: " ++ str_of_exn e)%string
                 /\ (folder = Raise e
                     \/ exists before clip after,
                          folder = Ok (before ++ clip :: after)
                          /\ Forall lookups_answer before
                          /\ lookup_raises clip e))).
Proof.
  intros env folder dry_run msg. unfold analyze_clips_and_rename.
  destruct (HAS_OPENCV env), (HAS_TESSERACT env); cbn [negb orb];
    try (intros [= <-]; left; split; [auto | reflexivity]).
  intros H. right. repeat split.
  destruct folder as [e|clips]; cbn [bind] in H.
  - injection H as <-. right. exists e. split; [reflexivity | now left].
  - destruct clips as [|clip rest].
    + injection H as <-. now left.
    + destruct (process_clips env dry_run (clip :: rest) results_init) as [e|r0] eqn:Hrun;
        cbn [bind] in H; [|discriminate H].
      injection H as <-. right. exists e. split; [reflexivity|]. right.
      destruct (process_clips_Raise _ _ _ _ _ Hrun) as (before & c & after & Heq & Hall & Hr).
      exists before, c, after. rewrite Heq. auto.
Qed.

(** X19 at a listing whose second clip has a stale handle. *)
Lemma X19_abort_causes_witness :
  ((HAS_OPENCV sample_env = false \/ HAS_TESSERACT sample_env = false)
   /\ "Failed to analyze clips: stale handle"
      = "Required dependencies not available. Install opencv-python and pytesseract.")
  \/ (HAS_OPENCV sample_env = true /\ HAS_TESSERACT sample_env = true
      /\ ((Ok [clip_slate; clip_stale] = Ok []
           /\ "Failed to analyze clips: stale handle"
              = "No clips found in the specified folder.")
          \/ exists e,
               "Failed to analyze clips: stale handle"
               = ("Failed to analyze clips: " ++ str_of_exn e)%string
               /\ (Ok [clip_slate; clip_stale] = Raise e
                   \/ exists before clip after,
                        Ok [clip_slate; clip_stale] = Ok (before ++ clip :: after)
                        /\ Forall lookups_answer before
                        /\ lookup_raises clip e))).
Proof.
  apply (X19_abort_causes sample_env (Ok [clip_slate; clip_stale]) true
           "Failed to analyze clips: stale handle").
  vm_compute. reflexivity.
Defined.

(** ** What an entry holds *)

Lemma process_clip_entry env dry_run clip r r' :
  process_clip env dry_run clip r = Ok r' ->
  exists c, r' = step_results r c /\ entry_ok dry_run c.
Proof.
  unfold process_clip.
  destruct (GetName clip) as [e|clip_name]; [discriminate|].
  destruct (GetFilePath clip) as [e|clip_path]; [discriminate|].
  cbn [bind].
  destruct (negb (truthy clip_path) ||
            negb (path_exists env (ClipRenamer.value clip_path))).
  { intros [= <-]. appended_entry. unfold entry_ok. cbn. repeat split; auto. }
  destruct (analyze_video_for_slate env (ClipRenamer.value clip_path) default_max_frames)
    as [e|slate_info].
  { intros [= <-]. appended_entry. unfold entry_ok. cbn. left. exists e.
    repeat split; auto. }
  destruct (PrimFloat.ltb (confidence slate_info) 0.3%float) eqn:Hlow.
  { intros [= <-]. appended_entry. unfold entry_ok. cbn.
    repeat split. right. right. exists (confidence slate_info). auto. }
  destruct (String.eqb (ClipRenamer.generate_clip_name slate_info clip_name) clip_name)
    eqn:Hsame.
  { intros [= <-]. appended_entry. unfold entry_ok. cbn. repeat split; auto. }
  assert (Hrenamed :
    entry_ok dry_run
      (with_outcome renamed None
         (mkClipResult clip_name error None
            (Some (ClipRenamer.generate_clip_name slate_info clip_name))
            (Some (snapshot slate_info)) (Some (confidence slate_info))))).
  { unfold entry_ok. cbn [status reason slate_fields new_name original_name
                                 result_confidence with_outcome].
    repeat split; [discriminate|].
    exists (ClipRenamer.generate_clip_name slate_info clip_name), (confidence slate_info).
    auto. }
  destruct dry_run eqn:Hdry; cbn [negb].
  { intros [= <-]. appended_entry. exact Hrenamed. }
  destruct (rename_clip clip (ClipRenamer.generate_clip_name slate_info clip_name)).
  { intros [= <-]. appended_entry. exact Hrenamed. }
  { intros [= <-]. appended_entry. unfold entry_ok.
    cbn [status reason slate_fields new_name original_name result_confidence with_outcome].
    right. repeat split.
    exists (ClipRenamer.generate_clip_name slate_info clip_name). auto. }
Qed.

Lemma process_clips_entries env dry_run clips :
  forall r r',
    Forall (entry_ok dry_run) (clip_results r) ->
    process_clips env dry_run clips r = Ok r' ->
    Forall (entry_ok dry_run) (clip_results r').
Proof.
  induction clips as [|clip rest IH]; intros r r' Hr Hrun.
  - injection Hrun as <-. exact Hr.
  - cbn [process_clips] in Hrun.
    destruct (process_clip env dry_run clip r) as [e|r1] eqn:Hstep; [discriminate|].
    destruct (process_clip_entry _ _ _ _ _ Hstep) as (c & -> & Hc).
    apply (IH _ _ ) in Hrun; [exact Hrun|].
    cbn [clip_results step_results]. apply Forall_app. split; [exact Hr|].
    constructor; [exact Hc | constructor].
Qed.

(** X20: every entry of a returned report is of one of five shapes.  A
    renamed entry has no reason and carries the slate fields, a new name that
    differs from the original one and a confidence not below 0.3.  A skipped
    entry carries none of these and has the reason of a missing file, of an
    unchanged name, or of a confidence below 0.3.  An error entry is either
    an analysis error, with the exception and nothing else, or a failed
    rename, with the new name, and the latter never in a dry run. *)
Theorem X20_entry_shapes :
  forall (env : Env) (folder : Folder) (dry_run : bool) (r : Results),
    analyze_clips_and_rename env folder dry_run = BatchResult r ->
    Forall (entry_ok dry_run) (clip_results r).
Proof.
  intros env folder dry_run r. unfold analyze_clips_and_rename.
  destruct (negb (HAS_OPENCV env) || negb (HAS_TESSERACT env)); [discriminate|].
  destruct folder as [e|clips]; cbn [bind]; [discriminate|].
  destruct clips as [|clip rest]; [discriminate|].
  destruct (process_clips env dry_run (clip :: rest) results_init) as [e|r0] eqn:Hrun;
    cbn [bind]; [discriminate|].
  intros [= <-].
  apply (process_clips_entries env dry_run (clip :: rest) results_init r0);
    [constructor | exact Hrun].
Qed.

(** X20 at the report of the five sample clips. *)
Lemma X20_entry_shapes_witness :
  Forall (entry_ok false)
    (clip_results
       (match analyze_clips_and_rename sample_env (Ok sample_clips) false with
        | BatchResult r => r
        | BatchError _ => results_init
        end)).
Proof.
  apply (X20_entry_shapes sample_env (Ok sample_clips) false).
  vm_compute. reflexivity.
Defined.

(** ** The counters add up *)

Lemma accounted_step r c : accounted r -> accounted (step_results r c).
Proof.
  unfold accounted, step_results.
  cbn [analyzed_clips successful_renames failed_renames clip_results].
  rewrite count_app. unfold is_renamed, is_error, is_skipped.
  destruct (status c); cbn [bump]; lia.
Qed.

Lemma process_clips_accounted env dry_run clips :
  forall r r',
    accounted r -> process_clips env dry_run clips r = Ok r' -> accounted r'.
Proof.
  induction clips as [|clip rest IH]; intros r r' Hr Hrun.
  - injection Hrun as <-. exact Hr.
  - cbn [process_clips] in Hrun.
    destruct (process_clip env dry_run clip r) as [e|r1] eqn:Hstep; [discriminate|].
    destruct (process_clip_Ok _ _ _ _ _ Hstep) as (c & -> & _).
    apply (IH _ _ (accounted_step r c Hr) Hrun).
Qed.

(** X21: every clip of a returned report is counted once: analyzed_clips is
    the sum of successful_renames, failed_renames and the number of skipped
    entries. *)
Theorem X21_counters_add_up :
  forall (env : Env) (folder : Folder) (dry_run : bool) (r : Results),
    analyze_clips_and_rename env folder dry_run = BatchResult r ->
    analyzed_clips r
    = successful_renames r + failed_renames r + count is_skipped (clip_results r).
Proof.
  intros env folder dry_run r. unfold analyze_clips_and_rename.
  destruct (negb (HAS_OPENCV env) || negb (HAS_TESSERACT env)); [discriminate|].
  destruct folder as [e|clips]; cbn [bind]; [discriminate|].
  destruct clips as [|clip rest]; [discriminate|].
  destruct (process_clips env dry_run (clip :: rest) results_init) as [e|r0] eqn:Hrun;
    cbn [bind]; [discriminate|].
  intros [= <-].
  apply (process_clips_accounted env dry_run (clip :: rest) results_init r0);
    [reflexivity | exact Hrun].
Qed.

(** X21 at the report of the five sample clips: 5 = 1 + 2 + 2. *)
Lemma X21_counters_add_up_witness :
  analyzed_clips
    (match analyze_clips_and_rename sample_env (Ok sample_clips) false with
     | BatchResult r => r
     | BatchError _ => results_init
     end)
  = successful_renames
      (match analyze_clips_and_rename sample_env (Ok sample_clips) false with
       | BatchResult r => r
       | BatchError _ => results_init
       end)
    + failed_renames
        (match analyze_clips_and_rename sample_env (Ok sample_clips) false with
         | BatchResult r => r
         | BatchError _ => results_init
         end)
    + count is_skipped
        (clip_results
           (match analyze_clips_and_rename sample_env (Ok sample_clips) false with
            | BatchResult r => r
            | BatchError _ => results_init
            end)).
Proof.
  apply (X21_counters_add_up sample_env (Ok sample_clips) false).
  vm_compute. reflexivity.
Defined.

(** ** The selector without an OCR engine *)

(** X22: without Tesseract the selector detects nothing and does not say
    so: whenever it returns, it returns the default SlateInfo, whatever the
    frames show (a missing OpenCV, by contrast, raises ImportError). *)
Theorem X22_no_tesseract_no_detection :
  forall (env : Env) (video_path : string) (max_frames : Z) (best : SlateInfo),
    HAS_TESSERACT env = false ->
    analyze_video_for_slate env video_path max_frames = Ok best ->
    best = SlateInfo_default.
Proof.
  intros env video_path max_frames best Hocr Hret.
  apply analyze_video_for_slate_Ok in Hret. unfold analyze_video_sampling in Hret.
  destruct (sampling_loop_selects env max_frames _ 0 SlateInfo_default best
              zero_in_values Hret) as (_ & _ & [[-> _] | Hcand]); [reflexivity|].
  destruct Hcand as (earlier & later & HL & _ & Hpos & _).
  destruct (analysed_are_sampled_frames env max_frames (VideoCapture env video_path)
              0 SlateInfo_default best)
    as (_ & _ & _ & frame & _ & Hc).
  { rewrite HL. apply in_or_app. right. now left. }
  rewrite Hc in Hpos. unfold analyze_frame in Hpos. rewrite Hocr in Hpos.
  discriminate Hpos.
Qed.

(** X22 at the clip with two readable takes. *)
Lemma X22_no_tesseract_no_detection_witness :
  match analyze_video_for_slate no_ocr_env "/media/tied.mov" 30 with
  | Ok best => best
  | Raise _ => set_take "none" SlateInfo_default
  end = SlateInfo_default.
Proof.
  apply (X22_no_tesseract_no_detection no_ocr_env "/media/tied.mov" 30).
  - reflexivity.
  - vm_compute. reflexivity.
Defined.
